(** * tap-postgres: type mapping, discovery and the sync orchestrator

    A shallow embedding of [tap_postgres/__init__.py].  Python values are
    given the types the program uses them at; a Python [None] is an
    [option]; dictionaries are insertion-ordered association lists; the
    logger, the message sink and the database are explicit state; a Python
    exception is the [inl] result of a computation. *)

From Stdlib Require Import String Ascii List ZArith Bool Lia.
From Stdlib Require Import Sorting.Sorted Sorting.Permutation Finite.
From Stdlib Require Import DecimalString.
Import ListNotations.

Set Warnings "-register-all".

Local Open Scope string_scope.
Local Open Scope list_scope.

(* ================================================================== *)
(** * Python values *)
(* ================================================================== *)

Module Py.

(** JSON-like values, as they occur in metadata, bookmarks and the
    connection configuration. *)
Inductive pyval : Type :=
| VNone
| VBool (b : bool)
| VInt (z : Z)
| VStr (s : string)
| VList (l : list pyval).

(** Truth value of an object in a condition ([if x:], [filter]). *)
Definition truthy (v : pyval) : bool :=
  match v with
  | VNone => false
  | VBool b => b
  | VInt z => negb (z =? 0)%Z
  | VStr s => negb (s =? "")
  | VList l => match l with [] => false | _ :: _ => true end
  end.

(** [x == 'literal'] for an arbitrary value [x]. *)
Definition eq_str (v : pyval) (s : string) : bool :=
  match v with
  | VStr t => t =? s
  | _ => false
  end.

(** Truth value of a nullable boolean. *)
Definition truthy_bool (b : option bool) : bool :=
  match b with
  | Some true => true
  | _ => false
  end.

(** Truth value of a nullable string. *)
Definition truthy_str (s : option string) : bool :=
  match s with
  | Some t => negb (t =? "")
  | None => false
  end.

(** [s != x] for a string [s] and a nullable string [x]. *)
Definition ne_str (s : string) (x : option string) : bool :=
  match x with
  | Some t => negb (s =? t)
  | None => true
  end.

(** ** Numbers

    [int ** int] is an exact integer when the exponent is not negative
    and a float otherwise (the bases of the program are 2 and 10, never
    0).  Floats are kept as the expression that computes them: no claim
    depends on their rounding. *)
Inductive pyfloat : Type :=
| FPow (base exponent : Z)          (* float(base) ** exponent, exponent < 0 *)
| FMulInt (k : Z) (f : pyfloat)     (* k * f *)
| FSubInt (f : pyfloat) (k : Z)     (* f - k *)
| FNeg (f : pyfloat).               (* -f *)

Inductive pynum : Type :=
| PInt (z : Z)
| PFloat (f : pyfloat).

Definition pow (base exponent : Z) : pynum :=
  if (exponent <? 0)%Z then PFloat (FPow base exponent)
  else PInt (base ^ exponent).

Definition mul_int (k : Z) (n : pynum) : pynum :=
  match n with
  | PInt z => PInt (k * z)
  | PFloat f => PFloat (FMulInt k f)
  end.

Definition sub_int (n : pynum) (k : Z) : pynum :=
  match n with
  | PInt z => PInt (z - k)
  | PFloat f => PFloat (FSubInt f k)
  end.

Definition neg (n : pynum) : pynum :=
  match n with
  | PInt z => PInt (- z)
  | PFloat f => PFloat (FNeg f)
  end.

(** ** Strings

    Strings are UTF-8 byte strings.  [str.lower] is modelled on the
    ASCII letters; the only non-ASCII character whose lower case is an
    ASCII letter is the Kelvin sign (to [k]), and no type name the
    program compares with contains a [k]. *)
Definition lower_ascii (c : ascii) : ascii :=
  let n := nat_of_ascii c in
  if (65 <=? n)%nat && (n <=? 90)%nat then ascii_of_nat (n + 32) else c.

Fixpoint lower (s : string) : string :=
  match s with
  | EmptyString => EmptyString
  | String c s' => String (lower_ascii c) (lower s')
  end.

(** [copy.deepcopy(x)]: the values of the model are immutable, and a copy
    of a value is the value. *)
Definition deepcopy {A} (x : A) : A := x.

(** [x in {...}] for a collection of string literals. *)
Definition in_strs (s : string) (l : list string) : bool :=
  existsb (String.eqb s) l.

(** ["{}".format(n)] for an integer. *)
Definition str_of_int (z : Z) : string :=
  NilZero.string_of_int (Z.to_int z).

(** ** Dictionaries: insertion-ordered, one binding per key. *)

(** Keys are compared with [==]. *)
Class Key (K : Type) : Type := {
  keqb : K -> K -> bool;
  keqb_eq : forall a b, keqb a b = true <-> a = b
}.

#[export] Instance string_Key : Key string :=
  {| keqb := String.eqb; keqb_eq := String.eqb_eq |}.

(** Tuples of strings (the breadcrumbs of the metadata). *)
Fixpoint strs_eqb (a b : list string) : bool :=
  match a, b with
  | [], [] => true
  | x :: a', y :: b' => (x =? y) && strs_eqb a' b'
  | _, _ => false
  end.

Lemma strs_eqb_eq (a b : list string) : strs_eqb a b = true <-> a = b.
Proof.
  revert b; induction a as [|x a IH]; intros [|y b]; simpl;
    try (split; [discriminate | discriminate]); try tauto.
  rewrite andb_true_iff, String.eqb_eq, IH.
  split; [intros [-> ->]; reflexivity | intros H; injection H; auto].
Qed.

#[export] Instance strs_Key : Key (list string) :=
  {| keqb := strs_eqb; keqb_eq := strs_eqb_eq |}.

Definition dict (K V : Type) : Type := list (K * V).

(** [d.get(k)] *)
Fixpoint get {K V} `{Key K} (d : dict K V) (k : K) : option V :=
  match d with
  | [] => None
  | (k', v) :: d' => if keqb k k' then Some v else get d' k
  end.

(** [d[k] = v]: an existing key keeps its position, a new one goes last. *)
Fixpoint set {K V} `{Key K} (d : dict K V) (k : K) (v : V) : dict K V :=
  match d with
  | [] => [(k, v)]
  | (k', v') :: d' =>
      if keqb k k' then (k', v) :: d' else (k', v') :: set d' k v
  end.

(** [d.keys()] and [d.items()], in insertion order. *)
Definition keys {K V} (d : dict K V) : list K := map fst d.
Definition items {K V} (d : dict K V) : list (K * V) := d.

(** [d.get(k, default)] *)
Definition get_default {K V} `{Key K} (d : dict K V) (k : K) (default : V) : V :=
  match get d k with
  | Some v => v
  | None => default
  end.

End Py.

Import Py.

(* ================================================================== *)
(** * Effects: exceptions, the logger, sequencing *)
(* ================================================================== *)

Module Eff.

(** The exceptions the program can meet. *)
Inductive exn : Type :=
| TypeError (msg : string)
| AttributeError (msg : string)
| KeyError (msg : string)
| Exception (msg : string).

Inductive Level : Type := INFO | WARNING | CRITICAL.

(** One call of [LOGGER.info] / [LOGGER.warning]: the format string and
    its arguments. *)
Record LogRecord : Type := {
  level : Level;
  fmt : string;
  args : list pyval
}.

(** A computation over a state [S] that returns a value or raises. *)
Definition M (S A : Type) : Type := S -> S * (exn + A).

Definition ret {S A} (a : A) : M S A := fun s => (s, inr a).

Definition bind {S A B} (m : M S A) (f : A -> M S B) : M S B :=
  fun s =>
    match m s with
    | (s', inl e) => (s', inl e)
    | (s', inr a) => f a s'
    end.

Definition raise {S A} (e : exn) : M S A := fun s => (s, inl e).

(** A state that holds the records of the process-wide logger. *)
Class Logging (S : Type) : Type := {
  emit_log : LogRecord -> S -> S
}.

Definition log {S} `{Logging S} (l : Level) (f : string) (a : list pyval)
  : M S unit :=
  fun s => (emit_log {| level := l; fmt := f; args := a |} s, inr tt).

#[export] Instance list_Logging : Logging (list LogRecord) :=
  {| emit_log := fun r s => s ++ [r] |}.

(** [d[k]]: a missing key raises. *)
Definition item {S K V} `{Key K} (d : dict K V) (k : K) : M S V :=
  match get d k with
  | Some v => ret v
  | None => raise (KeyError "")
  end.

(** [for x in l: acc = body(x, acc)] *)
Fixpoint for_each {S A B} (l : list A) (body : A -> B -> M S B) (acc : B)
  : M S B :=
  match l with
  | [] => ret acc
  | x :: l' => bind (body x acc) (for_each l' body)
  end.

End Eff.

Import Eff.

Declare Scope eff_scope.
Delimit Scope eff_scope with eff.
Notation "x <- c1 ;; c2" := (bind c1 (fun x => c2))
  (at level 61, c1 at next level, right associativity) : eff_scope.
Notation "c1 ;; c2" := (bind c1 (fun _ => c2))
  (at level 61, right associativity) : eff_scope.
Local Open Scope eff_scope.

(* ================================================================== *)
(** * The type mapper *)
(* ================================================================== *)

Module TypeMapper.

(** [Column]: one column of the metadata query. *)
Record Column : Type := {
  column_name : string;
  is_primary_key : option bool;
  sql_data_type : string;
  character_maximum_length : option Z;
  numeric_precision : option Z;
  numeric_scale : option Z
}.

Definition INTEGER_TYPES : list string := ["integer"; "smallint"; "bigint"].
Definition FLOAT_TYPES : list string := ["real"; "double precision"].
Definition JSON_TYPES : list string := ["json"; "jsonb"].

Definition MAX_SCALE : Z := 38.
Definition MAX_PRECISION : Z := 100.

(** The [type] of a schema: a name or a list of names. *)
Inductive SchemaType : Type :=
| TypeName (s : string)
| TypeList (l : list string).

(** [singer.schema.Schema], with the attributes the program sets. *)
Inductive Schema : Type := mkSchema {
  type : option SchemaType;
  properties : option (dict string Schema);
  minimum : option pynum;
  maximum : option pynum;
  exclusiveMinimum : option bool;
  exclusiveMaximum : option bool;
  multipleOf : option pynum;
  maxLength : option Z;
  format : option string
}.

(** [Schema()] *)
Definition Schema_ : Schema :=
  mkSchema None None None None None None None None None.

Definition set_type (r : Schema) (t : list string) : Schema :=
  mkSchema (Some (TypeList t)) (properties r) (minimum r) (maximum r)
    (exclusiveMinimum r) (exclusiveMaximum r) (multipleOf r) (maxLength r)
    (format r).

Definition set_minimum (r : Schema) (n : pynum) : Schema :=
  mkSchema (type r) (properties r) (Some n) (maximum r)
    (exclusiveMinimum r) (exclusiveMaximum r) (multipleOf r) (maxLength r)
    (format r).

Definition set_maximum (r : Schema) (n : pynum) : Schema :=
  mkSchema (type r) (properties r) (minimum r) (Some n)
    (exclusiveMinimum r) (exclusiveMaximum r) (multipleOf r) (maxLength r)
    (format r).

Definition set_exclusiveMinimum (r : Schema) (b : bool) : Schema :=
  mkSchema (type r) (properties r) (minimum r) (maximum r)
    (Some b) (exclusiveMaximum r) (multipleOf r) (maxLength r) (format r).

Definition set_exclusiveMaximum (r : Schema) (b : bool) : Schema :=
  mkSchema (type r) (properties r) (minimum r) (maximum r)
    (exclusiveMinimum r) (Some b) (multipleOf r) (maxLength r) (format r).

Definition set_multipleOf (r : Schema) (n : pynum) : Schema :=
  mkSchema (type r) (properties r) (minimum r) (maximum r)
    (exclusiveMinimum r) (exclusiveMaximum r) (Some n) (maxLength r)
    (format r).

(** [result.maxLength = c.character_maximum_length] (which may be null) *)
Definition set_maxLength (r : Schema) (n : option Z) : Schema :=
  mkSchema (type r) (properties r) (minimum r) (maximum r)
    (exclusiveMinimum r) (exclusiveMaximum r) (multipleOf r) n (format r).

Definition set_format (r : Schema) (f : string) : Schema :=
  mkSchema (type r) (properties r) (minimum r) (maximum r)
    (exclusiveMinimum r) (exclusiveMaximum r) (multipleOf r) (maxLength r)
    (Some f).

Definition nullable_column (col_type : string) (pk : option bool)
  : list string :=
  if truthy_bool pk then [col_type] else ["null"; col_type].


(** [x - 1] on a nullable integer: a null operand raises. *)
Definition operand {S} (x : option Z) : M S Z :=
  match x with
  | Some z => ret z
  | None =>
      raise (TypeError "unsupported operand type(s) for -: 'NoneType' and 'int'")
  end.

(** [x == n] on a nullable integer. *)
Definition eq_int (x : option Z) (n : Z) : bool :=
  match x with
  | Some z => (z =? n)%Z
  | None => false
  end.

(** [scale]/[precision] of a numeric column: [x is None or x > cap]
    logs the warning and takes the cap. *)
Definition capped {S} `{Logging S} (x : option Z) (cap : Z) (warning : string)
  : M S Z :=
  match x with
  | None => log WARNING warning [] ;; ret cap
  | Some z =>
      if (z >? cap)%Z then log WARNING warning [] ;; ret cap
      else ret z
  end.

Definition schema_for_column {S} `{Logging S} (c : Column) : M S Schema :=
  let data_type := lower (sql_data_type c) in
  let result := Schema_ in
  if in_strs data_type INTEGER_TYPES then
    let result := set_type result (nullable_column "integer" (is_primary_key c)) in
    p <- operand (numeric_precision c) ;;
    let result := set_minimum result (mul_int (-1) (pow 2 (p - 1))) in
    let result := set_maximum result (sub_int (pow 2 (p - 1)) 1) in
    ret result
  else if (data_type =? "bit") && eq_int (character_maximum_length c) 1 then
    ret (set_type result (nullable_column "boolean" (is_primary_key c)))
  else if data_type =? "boolean" then
    ret (set_type result (nullable_column "boolean" (is_primary_key c)))
  else if data_type =? "uuid" then
    ret (set_type result (nullable_column "string" (is_primary_key c)))
  else if data_type =? "hstore" then
    ret (set_type result (nullable_column "string" (is_primary_key c)))
  else if in_strs data_type JSON_TYPES then
    ret (set_type result (nullable_column "string" (is_primary_key c)))
  else if data_type =? "numeric" then
    let result := set_type result (nullable_column "number" (is_primary_key c)) in
    scale <- capped (numeric_scale c) MAX_SCALE
               "capping decimal scale to 38.  THIS MAY CAUSE TRUNCATION" ;;
    precision <- capped (numeric_precision c) MAX_PRECISION
               "capping decimal precision to 100.  THIS MAY CAUSE TRUNCATION" ;;
    let result := set_exclusiveMaximum result true in
    let result := set_maximum result (pow 10 (precision - scale)) in
    let result := set_multipleOf result (pow 10 (0 - scale)) in
    let result := set_exclusiveMinimum result true in
    let result := set_minimum result (neg (pow 10 (precision - scale))) in
    ret result
  else if in_strs data_type ["time without time zone"; "time with time zone"] then
    ret (set_type result (nullable_column "string" (is_primary_key c)))
  else if in_strs data_type
            ["date"; "timestamp without time zone"; "timestamp with time zone"] then
    let result := set_type result (nullable_column "string" (is_primary_key c)) in
    ret (set_format result "date-time")
  else if in_strs data_type FLOAT_TYPES then
    ret (set_type result (nullable_column "number" (is_primary_key c)))
  else if data_type =? "text" then
    ret (set_type result (nullable_column "string" (is_primary_key c)))
  else if data_type =? "character varying" then
    let result := set_type result (nullable_column "string" (is_primary_key c)) in
    ret (set_maxLength result (character_maximum_length c))
  else if data_type =? "character" then
    let result := set_type result (nullable_column "string" (is_primary_key c)) in
    ret (set_maxLength result (character_maximum_length c))
  else
    ret Schema_.

End TypeMapper.

Import TypeMapper.

(* ================================================================== *)
(** * The singer library: metadata, catalog, state, messages *)
(* ================================================================== *)

Module Singer.

(** A breadcrumb is a tuple of strings: [()] for the stream,
    [('properties', c)] for a column. *)
Definition Breadcrumb : Type := list string.

(** Compiled metadata ([metadata.to_map]) and its list form. *)
Definition MdMap : Type := dict Breadcrumb (dict string pyval).
Definition MdList : Type := list (Breadcrumb * dict string pyval).

(** [metadata.write(compiled_metadata, breadcrumb, k, val)].  The library
    refuses a null [val]; every value the program writes is non-null. *)
Definition write (compiled_metadata : MdMap) (breadcrumb : Breadcrumb)
  (k : string) (val : pyval) : MdMap :=
  match get compiled_metadata breadcrumb with
  | Some d => set compiled_metadata breadcrumb (set d k val)
  | None => set compiled_metadata breadcrumb [(k, val)]
  end.

(** [metadata.to_list] and [metadata.to_map]: in [to_map] a later entry
    with the same breadcrumb replaces an earlier one. *)
Definition to_list (compiled_metadata : MdMap) : MdList :=
  items compiled_metadata.

Definition to_map (raw_metadata : MdList) : MdMap :=
  fold_left (fun m md => set m (fst md) (snd md)) raw_metadata [].

(** [singer.catalog.CatalogEntry] and [Catalog]. *)
Record CatalogEntry : Type := {
  table : string;
  stream : string;
  metadata : MdList;
  tap_stream_id : string;
  schema : Schema
}.

Record Catalog : Type := { streams : list CatalogEntry }.

(** The state document: the [currently_syncing] marker and the bookmarks
    of every stream.  An absent key and a null are not told apart, as in
    the accessors below. *)
Record State : Type := {
  currently_syncing : option string;
  bookmarks : dict string (dict string pyval)
}.

(** [singer.get_bookmark(state, tap_stream_id, key)] *)
Definition get_bookmark (state : State) (tap_stream_id key : string) : pyval :=
  get_default (get_default (bookmarks state) tap_stream_id []) key VNone.

(** [singer.write_bookmark(state, tap_stream_id, key, val)] *)
Definition write_bookmark (state : State) (tap_stream_id key : string)
  (val : pyval) : State :=
  {| currently_syncing := currently_syncing state;
     bookmarks :=
       set (bookmarks state) tap_stream_id
         (set (get_default (bookmarks state) tap_stream_id []) key val) |}.

(** [singer.set_currently_syncing] and [singer.get_currently_syncing] *)
Definition set_currently_syncing (state : State) (tap_stream_id : option string)
  : State :=
  {| currently_syncing := tap_stream_id; bookmarks := bookmarks state |}.

Definition get_currently_syncing (state : State) : option string :=
  currently_syncing state.

(** What reaches the message sink: the schema and state messages the
    orchestrator writes, and the lines the strategies write themselves,
    which pass through unread. *)
Inductive Message (X : Type) : Type :=
| SchemaMessage (stream : string) (schema : Schema) (key_properties : pyval)
    (bookmark_properties : list string)
| StateMessage (value : State)
| Passthrough (line : X).

Arguments SchemaMessage {X}.
Arguments StateMessage {X}.
Arguments Passthrough {X}.

End Singer.

Import Singer.

(* ================================================================== *)
(** * Discovery *)
(* ================================================================== *)

Module Discovery.

(** One row of the metadata query:
    [row_count, is_view, schema_name, table_name, *col_info]. *)
Record Row : Type := {
  r_row_count : Z;
  r_is_view : bool;
  r_schema_name : string;
  r_table_name : string;
  r_col_info : Column
}.

(** [{'is_view': ..., 'row_count': ..., 'columns': {...}}] *)
Record Table : Type := {
  is_view : bool;
  row_count : Z;
  columns : dict string Column
}.

Definition TableInfo : Type := dict string (dict string Table).

(** The body of the loop over [cur.fetchall()]. *)
Definition add_row (table_info : TableInfo) (row : Row) : TableInfo :=
  let schema_name := r_schema_name row in
  let table_name := r_table_name row in
  let table_info :=
    match get table_info schema_name with
    | None => set table_info schema_name []
    | Some _ => table_info
    end in
  let tables := get_default table_info schema_name [] in
  let tables :=
    match get tables table_name with
    | None =>
        set tables table_name
          {| is_view := r_is_view row; row_count := r_row_count row;
             columns := [] |}
    | Some _ => tables
    end in
  let col_name := column_name (r_col_info row) in
  let tables :=
    match get tables table_name with
    | Some t =>
        set tables table_name
          {| is_view := is_view t; row_count := row_count t;
             columns := set (columns t) col_name (r_col_info row) |}
    | None => tables
    end in
  set table_info schema_name tables.

Definition produce_table_info (rows : list Row) : TableInfo :=
  fold_left add_row rows [].


Definition write_sql_data_type_md {S} (mdata : MdMap) (col_info : Column)
  : M S MdMap :=
  let c_name := column_name col_info in
  if sql_data_type col_info =? "bit" then
    match character_maximum_length col_info with
    | None =>
        raise (TypeError
                 "'>' not supported between instances of 'NoneType' and 'int'")
    | Some n =>
        if (n >? 1)%Z then
          ret (write mdata ["properties"; c_name] "sql-datatype"
                 (VStr ("bit(" ++ str_of_int n ++ ")")))
        else
          ret (write mdata ["properties"; c_name] "sql-datatype"
                 (VStr (sql_data_type col_info)))
    end
  else
    ret (write mdata ["properties"; c_name] "sql-datatype"
           (VStr (sql_data_type col_info))).

(** The body of the loop over [column_schemas.keys()]. *)
Definition column_metadata {S} (columns : dict string Column)
  (column_schemas : dict string Schema) (c_name : string) (mdata : MdMap)
  : M S MdMap :=
  col_info <- item columns c_name ;;
  mdata <- write_sql_data_type_md mdata col_info ;;
  column_schema <- item column_schemas c_name ;;
  match type column_schema with
  | None =>
      let mdata := write mdata ["properties"; c_name] "inclusion" (VStr "unsupported") in
      ret (write mdata ["properties"; c_name] "selected-by-default" (VBool false))
  | Some _ =>
      if truthy_bool (is_primary_key col_info) then
        let mdata := write mdata ["properties"; c_name] "inclusion" (VStr "automatic") in
        ret (write mdata ["properties"; c_name] "selected-by-default" (VBool true))
      else
        let mdata := write mdata ["properties"; c_name] "inclusion" (VStr "available") in
        ret (write mdata ["properties"; c_name] "selected-by-default" (VBool true))
  end.

(** The body of the loop over the tables of a schema: one catalog entry.
    [database_name] is what [SELECT current_database()] returns on the
    connection. *)
Definition discover_table {S} `{Logging S} (database_name : string)
  (table_info : TableInfo) (schema_name table_name : string)
  : M S CatalogEntry :=
  let mdata : MdMap := [] in
  tables <- item table_info schema_name ;;
  t <- item tables table_name ;;
  let columns := columns t in
  let table_pks :=
    map fst (filter (fun ci => truthy_bool (is_primary_key (snd ci)))
               (items columns)) in
  let mdata := write mdata [] "table-key-properties" (VList (map VStr table_pks)) in
  let mdata := write mdata [] "schema-name" (VStr schema_name) in
  let mdata := write mdata [] "database-name" (VStr database_name) in
  let mdata := write mdata [] "row-count" (VInt (row_count t)) in
  let mdata := write mdata [] "is-view" (VBool (is_view t)) in
  column_schemas <-
    for_each (items columns)
      (fun ci d => s <- schema_for_column (snd ci) ;; ret (set d (fst ci) s))
      [] ;;
  let schema :=
    mkSchema (Some (TypeName "object")) (Some column_schemas)
      None None None None None None None in
  mdata <- for_each (keys column_schemas)
             (column_metadata columns column_schemas) mdata ;;
  ret {| table := table_name;
         stream := table_name;
         metadata := to_list mdata;
         tap_stream_id := database_name ++ "-" ++ schema_name ++ "-" ++ table_name;
         schema := schema |}.

Definition discover_columns {S} `{Logging S} (database_name : string)
  (table_info : TableInfo) : M S (list CatalogEntry) :=
  for_each (keys table_info)
    (fun schema_name entries =>
       tables <- item table_info schema_name ;;
       for_each (keys tables)
         (fun table_name entries =>
            entry <- discover_table database_name table_info
                       schema_name table_name ;;
            ret (entries ++ [entry]))
         entries)
    [].

(** A database of the cluster: its name and the rows its metadata query
    returns.  The cluster, in the order of the [pg_database] query, stands
    for the connections [post_db.open_connection] opens. *)
Record Database : Type := {
  datname : string;
  rows : list Row
}.

Definition discover_db {S} `{Logging S} (db : Database)
  : M S (list CatalogEntry) :=
  let table_info := produce_table_info (rows db) in
  discover_columns (datname db) table_info.

(** [do_discovery]; [dump_catalog] prints the catalog it returns. *)
Definition do_discovery {S} `{Logging S} (cluster : list Database)
  : M S Catalog :=
  log INFO "Fetching db's from cluster" [] ;;
  all_streams <-
    for_each cluster
      (fun db all_streams =>
         let dbname := datname db in
         log INFO "Discovering db %s" [VStr dbname] ;;
         db_streams <- discover_db db ;;
         ret (all_streams ++ db_streams))
      [] ;;
  let cluster_catalog := {| streams := all_streams |} in
  ret cluster_catalog.

End Discovery.

Import Discovery.

(* ================================================================== *)
(** * The process: message sink, logger, and the strategy modules *)
(* ================================================================== *)

Module Proc.

(** What a sync run acts on: the database cluster ([World]), the lines
    written to the message sink, and the logger.  [singer.write_message]
    serialises its argument at once, so the sink holds values. *)
Record Env (World X : Type) : Type := {
  world : World;
  sink : list (Message X);
  logs : list LogRecord
}.

Arguments world {World X}.
Arguments sink {World X}.
Arguments logs {World X}.

#[export] Instance Env_Logging {World X} : Logging (Env World X) :=
  {| emit_log := fun r e =>
       {| world := world e; sink := sink e; logs := logs e ++ [r] |} |}.

(** [singer.write_message(m)] *)
Definition write_message {World X} (m : Message X) : M (Env World X) unit :=
  fun e =>
    ({| world := world e; sink := sink e ++ [m]; logs := logs e |}, inr tt).

(** A call into a strategy module: it acts on the database, writes its own
    lines to the sink, and returns or raises. *)
Definition Ext (World X A : Type) : Type :=
  World -> list X * World * (exn + A).

Definition call {World X A} (c : Ext World X A) : M (Env World X) A :=
  fun e =>
    let '(out, w, r) := c (world e) in
    ({| world := w; sink := sink e ++ map Passthrough out; logs := logs e |},
     r).

(** The connection configuration: a dictionary. *)
Definition ConnConfig : Type := dict string pyval.

End Proc.

Import Proc.

(** [tap_postgres.sync_strategies.logical_replication]: the functions the
    orchestrator calls.  [add_automatic_properties] returns the stream as
    it has changed it. *)
Module logical_replication.
Class t (World X : Type) : Type := {
  fetch_current_lsn : ConnConfig -> Ext World X pyval;
  add_automatic_properties : CatalogEntry -> Ext World X CatalogEntry;
  sync_table :
    ConnConfig -> CatalogEntry -> State -> list string -> MdMap ->
    Ext World X State
}.
End logical_replication.

(** [tap_postgres.sync_strategies.full_table] *)
Module full_table.
Class t (World X : Type) : Type := {
  sync_view :
    ConnConfig -> CatalogEntry -> State -> list string -> MdMap ->
    Ext World X State;
  sync_table :
    ConnConfig -> CatalogEntry -> State -> list string -> MdMap ->
    Ext World X State
}.
End full_table.

(* ================================================================== *)
(** * Python's [sort] and [itertools.dropwhile] *)
(* ================================================================== *)

Module Iter.

(** [list.sort(key=...)] on string keys: a stable sort by code points,
    which is the byte order of the UTF-8 strings. *)
Fixpoint insert_by {A} (key : A -> string) (x : A) (l : list A) : list A :=
  match l with
  | [] => [x]
  | y :: l' =>
      if (key x <=? key y)%string then x :: l else y :: insert_by key x l'
  end.

Fixpoint sort_by {A} (key : A -> string) (l : list A) : list A :=
  match l with
  | [] => []
  | x :: l' => insert_by key x (sort_by key l')
  end.

Fixpoint dropwhile {A} (p : A -> bool) (l : list A) : list A :=
  match l with
  | [] => []
  | x :: l' => if p x then dropwhile p l' else l
  end.

End Iter.

Import Iter.

(* ================================================================== *)
(** * The sync orchestrator *)
(* ================================================================== *)

Module Sync.

Section Orchestrator.

Context {World X : Type}.
Context {LR : logical_replication.t World X} {FT : full_table.t World X}.

#[local] Abbreviation Env := (Proc.Env World X).

(** [md_map.get(breadcrumb, {}).get(k)] *)
Definition md_get (md_map : MdMap) (breadcrumb : Breadcrumb) (k : string)
  : pyval :=
  get_default (get_default md_map breadcrumb []) k VNone.

Definition should_sync_column (md_map : MdMap) (field_name : string) : bool :=
  if eq_str (md_get md_map ["properties"; field_name] "inclusion") "unsupported"
  then false
  else if truthy (md_get md_map ["properties"; field_name] "selected")
  then true
  else if eq_str (md_get md_map ["properties"; field_name] "inclusion") "automatic"
  then true
  else false.

Definition send_schema_message (stream : CatalogEntry)
  (bookmark_properties : list string) : M Env unit :=
  let s_md := to_map (metadata stream) in
  let key_properties :=
    if truthy (md_get s_md [] "is-view")
    then md_get s_md [] "view-key-properties"
    else md_get s_md [] "table-key-properties" in
  let schema_message :=
    SchemaMessage (Singer.stream stream) (schema stream) key_properties
      bookmark_properties in
  write_message schema_message.

Definition is_selected_via_metadata (stream : CatalogEntry) : pyval :=
  let table_md := get_default (to_map (metadata stream)) [] [] in
  get_default table_md "selected" VNone.

Definition do_sync_full_table (conn_config : ConnConfig)
  (stream : CatalogEntry) (state : State) (desired_columns : list string)
  (md_map : MdMap) : M Env State :=
  log INFO "Stream %s is using full_table" [VStr (tap_stream_id stream)] ;;
  send_schema_message stream [] ;;
  if truthy (md_get md_map [] "is-view") then
    call (full_table.sync_view conn_config stream state desired_columns md_map)
  else
    call (full_table.sync_table conn_config stream state desired_columns md_map).

Definition do_sync_logical_replication (conn_config : ConnConfig)
  (stream : CatalogEntry) (state : State) (desired_columns : list string)
  (md_map : MdMap) : M Env State :=
  if truthy (get_bookmark state (tap_stream_id stream) "lsn") then
    end_lsn <- call (logical_replication.fetch_current_lsn conn_config) ;;
    log INFO "Stream %s is using logical replication. end lsn %s"
      [VStr (tap_stream_id stream); end_lsn] ;;
    stream <- call (logical_replication.add_automatic_properties stream) ;;
    send_schema_message stream ["lsn"] ;;
    call (logical_replication.sync_table conn_config stream state
            desired_columns md_map)
  else
    (* start off with full-table replication *)
    end_lsn <- call (logical_replication.fetch_current_lsn conn_config) ;;
    log INFO
      "Stream %s is using logical replication. performing initial full table sync"
      [VStr (tap_stream_id stream)] ;;
    send_schema_message stream [] ;;
    state <- call (full_table.sync_table conn_config stream state
                     desired_columns md_map) ;;
    let state := write_bookmark state (tap_stream_id stream) "xmin" VNone in
    (* once we are done with full table, write the lsn to the state *)
    let state := write_bookmark state (tap_stream_id stream) "lsn" end_lsn in
    ret state.

(** The three-way branch on the replication method in [do_sync]. *)
Definition dispatch (replication_method : pyval) (conn_config : ConnConfig)
  (stream : CatalogEntry) (state : State) (desired_columns : list string)
  (md_map : MdMap) : M Env State :=
  if eq_str replication_method "LOG_BASED" then
    do_sync_logical_replication conn_config stream state desired_columns md_map
  else if eq_str replication_method "FULL_TABLE" then
    do_sync_full_table conn_config stream state desired_columns md_map
  else
    raise (Exception "only LOG_BASED and FULL_TABLE are supported right now :)").

(** [[c for c in properties.keys() if should_sync_column(md_map, c)]],
    sorted. *)
Definition desired_columns_of (md_map : MdMap)
  (properties : dict string Schema) : list string :=
  sort_by (fun c => c) (filter (should_sync_column md_map) (keys properties)).

(** [md_map.get((), {}).get('replication-method', default_replication_method)] *)
Definition replication_method_of (md_map : MdMap)
  (default_replication_method : pyval) : pyval :=
  get_default (get_default md_map [] []) "replication-method"
    default_replication_method.

(** The body of the loop of [do_sync], on the mutable [conn_config] and
    the current [state]. *)
Definition sync_stream (default_replication_method : pyval)
  (stream : CatalogEntry) (acc : ConnConfig * State)
  : M Env (ConnConfig * State) :=
  let '(conn_config, state) := acc in
  let md_map := to_map (metadata stream) in
  stream_md <-
    match get md_map [] with
    | Some d => ret d
    | None => raise (AttributeError "'NoneType' object has no attribute 'get'")
    end ;;
  let conn_config := set conn_config "dbname"
                       (get_default stream_md "database-name" VNone) in
  let state := set_currently_syncing state (Some (tap_stream_id stream)) in
  properties <-
    match properties (schema stream) with
    | Some p => ret p
    | None => raise (AttributeError "'NoneType' object has no attribute 'keys'")
    end ;;
  let desired_columns := desired_columns_of md_map properties in
  if (length desired_columns =? 0)%nat then
    log WARNING "There are no columns selected for stream %s, skipping it"
      [VStr (tap_stream_id stream)] ;;
    ret (conn_config, state)
  else
    let replication_method :=
      replication_method_of md_map default_replication_method in
    if eq_str replication_method "LOG_BASED"
       && truthy (md_get md_map [] "is-view") then
      log WARNING
        "Logical Replication is NOT supported for views. skipping stream %s"
        [VStr (tap_stream_id stream)] ;;
      ret (conn_config, state)
    else
      state <- dispatch replication_method conn_config stream state
                 desired_columns md_map ;;
      let state := set_currently_syncing state None in
      write_message (StateMessage (deepcopy state)) ;;
      ret (conn_config, state).

(** [streams] after the filter and the sort. *)
Definition selected_streams (catalog : Catalog) : list CatalogEntry :=
  let streams :=
    filter (fun s => truthy (is_selected_via_metadata s)) (streams catalog) in
  sort_by tap_stream_id streams.

(** [streams] as the loop iterates it: after [dropwhile] when
    [currently_syncing] is true in a condition. *)
Definition resumed_streams (catalog : Catalog) (state : State)
  : list CatalogEntry :=
  let streams := selected_streams catalog in
  let currently_syncing := get_currently_syncing state in
  if truthy_str currently_syncing then
    dropwhile (fun s => ne_str (tap_stream_id s) currently_syncing) streams
  else streams.

(** [do_sync] returns nothing; the model returns the last binding of its
    local [state] (the caller's dictionary, updated in place by the library)
    with the [conn_config]. *)
Definition do_sync (conn_config : ConnConfig) (catalog : Catalog)
  (default_replication_method : pyval) (state : State)
  : M Env (ConnConfig * State) :=
  for_each (resumed_streams catalog state)
    (sync_stream default_replication_method) (conn_config, state).

End Orchestrator.

End Sync.

Import Sync.

(* ================================================================== *)
(** * The properties, in the words of the specification *)
(* ================================================================== *)

Module Spec.

(** The canonical type of a native type, by the rows of the mapping table;
    [None] is the last row (unsupported). *)
Definition canonical_type (c : Column) : option string :=
  let t := lower (sql_data_type c) in
  if in_strs t INTEGER_TYPES then Some "integer"
  else if (t =? "bit") && eq_int (character_maximum_length c) 1 then Some "boolean"
  else if t =? "boolean" then Some "boolean"
  else if in_strs t ["uuid"; "hstore"; "json"; "jsonb"] then Some "string"
  else if t =? "numeric" then Some "number"
  else if in_strs t ["time without time zone"; "time with time zone"] then Some "string"
  else if in_strs t ["date"; "timestamp without time zone";
                     "timestamp with time zone"] then Some "string"
  else if in_strs t FLOAT_TYPES then Some "number"
  else if in_strs t ["text"; "character varying"; "character"] then Some "string"
  else None.

(** A column of the integer family. *)
Definition integer_family (c : Column) : bool :=
  in_strs (lower (sql_data_type c)) INTEGER_TYPES.




(** A capping event: the value is null or exceeds the cap. *)
Definition exceeds (x : option Z) (cap : Z) : bool :=
  match x with
  | Some z => (cap <? z)%Z
  | None => true
  end.

Definition warning (text : string) : LogRecord :=
  {| level := WARNING; fmt := text; args := [] |}.


(** The order of the sort: by key, ascending. *)
Definition key_le {A} (key : A -> string) (x y : A) : Prop :=
  (key x <=? key y)%string = true.

(** The elements [dropwhile] drops. *)
Fixpoint takewhile {A} (p : A -> bool) (l : list A) : list A :=
  match l with
  | [] => []
  | x :: l' => if p x then x :: takewhile p l' else []
  end.

(** A desired column, in the words of the specification: its inclusion is
    not [unsupported], and it is [automatic] or the column is selected. *)
Definition desired (md_map : MdMap) (c : string) : bool :=
  negb (eq_str (md_get md_map ["properties"; c] "inclusion") "unsupported")
  && (eq_str (md_get md_map ["properties"; c] "inclusion") "automatic"
      || truthy (md_get md_map ["properties"; c] "selected")).


(** The stream has a schema with properties, one of them desired. *)
Definition some_desired_column (stream : CatalogEntry) : Prop :=
  exists props c,
    properties (schema stream) = Some props /\
    In c (keys props) /\ desired (to_map (metadata stream)) c = true.

(** The stream is selected at the stream level: the streams the loop of
    [do_sync] iterates all are. *)
Definition selected (stream : CatalogEntry) : Prop :=
  truthy (is_selected_via_metadata stream) = true.

(** The replication method of a stream: its own, else the default. *)
Definition resolved_method (default_replication_method : pyval)
  (stream : CatalogEntry) : pyval :=
  replication_method_of (to_map (metadata stream)) default_replication_method.

Definition is_view_stream (stream : CatalogEntry) : bool :=
  truthy (md_get (to_map (metadata stream)) [] "is-view").

(** What the loop has done to [conn_config] and [state] when it reaches
    the checks of a stream: the database is the stream's, and the stream is
    marked as the one being synced. *)
Definition at_stream (stream : CatalogEntry) (conn_config : ConnConfig)
  : ConnConfig :=
  set conn_config "dbname"
    (md_get (to_map (metadata stream)) [] "database-name").

Definition marked (stream : CatalogEntry) (state : State) : State :=
  set_currently_syncing state (Some (tap_stream_id stream)).

(** The sorted desired columns of a stream. *)
Definition desired_columns (stream : CatalogEntry) : list string :=
  match properties (schema stream) with
  | Some props => desired_columns_of (to_map (metadata stream)) props
  | None => []
  end.

(** The schema message of a stream, with its key properties. *)
Definition schema_message_of {X} (stream : CatalogEntry)
  (bookmark_properties : list string) : Message X :=
  let s_md := to_map (metadata stream) in
  SchemaMessage (Singer.stream stream) (schema stream)
    (if truthy (md_get s_md [] "is-view")
     then md_get s_md [] "view-key-properties"
     else md_get s_md [] "table-key-properties")
    bookmark_properties.

(** A state message of the orchestrator carries a null marker. *)
Definition checkpoint {X} (m : Message X) : Prop :=
  match m with
  | StateMessage value => currently_syncing value = None
  | _ => True
  end.

Definition is_state_message {X} (m : Message X) : bool :=
  match m with
  | StateMessage _ => true
  | _ => false
  end.

(** The messages that are not state messages. *)
Definition not_state {X} (m : Message X) : Prop := is_state_message m = false.

(** The sink only grows: a computation appends its messages to what is
    there.  [grows P m]: every message [m] appends satisfies [P]. *)
Definition grows {World X A} (P : Message X -> Prop) (m : M (Env World X) A)
  : Prop :=
  forall env, exists out,
    sink (fst (m env)) = sink env ++ out /\ Forall P out.

(** The elements a loop enters the body for: all of them, up to and
    including the first on which the body raises. *)
Fixpoint entered {S A B} (l : list A) (body : A -> B -> M S B) (acc : B)
  (s : S) : list A :=
  match l with
  | [] => []
  | x :: l' =>
      x :: match body x acc s with
           | (s', inr acc') => entered l' body acc' s'
           | (_, inl _) => []
           end
  end.

(** The streams a run of [do_sync] processes. *)
Definition processed {World X} `{logical_replication.t World X}
  `{full_table.t World X} (conn_config : ConnConfig) (catalog : Catalog)
  (default_replication_method : pyval) (state : State) (env : Env World X)
  : list CatalogEntry :=
  entered (resumed_streams catalog state)
    (sync_stream default_replication_method) (conn_config, state) env.

(** ** Discovery *)

(** The identifier of the specification: [database-schema-table]. *)
Definition stream_id (database schema table : string) : string :=
  database ++ "-" ++ schema ++ "-" ++ table.

(** The tables of a grouped metadata result, schema by schema. *)
Definition tables_of (table_info : TableInfo) : list (string * string) :=
  flat_map
    (fun schema_name =>
       map (fun table_name => (schema_name, table_name))
         (keys (get_default table_info schema_name [])))
    (keys table_info).

(** A grouping in which the schemas are distinct and every schema has
    distinct tables. *)
Definition grouped (table_info : TableInfo) : Prop :=
  NoDup (keys table_info) /\
  forall schema_name, NoDup (keys (get_default table_info schema_name [])).

(** The tables of a cluster, database by database. *)
Definition cluster_tables (cluster : list Database)
  : list (string * string * string) :=
  flat_map
    (fun db =>
       map (fun st => (datname db, fst st, snd st))
         (tables_of (produce_table_info (rows db))))
    cluster.

(** The identifier of an entry and the table it stands for. *)
Definition id_and_table (e : CatalogEntry) : string * string :=
  (tap_stream_id e, table e).

(** A name with no hyphen in it. *)
Fixpoint hyphen_free (s : string) : Prop :=
  match s with
  | EmptyString => True
  | String c s' => c <> "-"%char /\ hyphen_free s'
  end.

(** Database names are distinct, and neither they nor the schema names
    have a hyphen. *)
Definition unambiguous (cluster : list Database) : Prop :=
  NoDup (map datname cluster) /\
  forall db, In db cluster ->
    hyphen_free (datname db) /\
    forall row, In row (rows db) -> hyphen_free (r_schema_name row).

(** ** Discovery, table by table *)

(** The table of a grouping, and a column of it. *)
Definition lookup_table (table_info : TableInfo) (schema_name table_name : string)
  : option Table :=
  match get table_info schema_name with
  | Some tables => get tables table_name
  | None => None
  end.

Definition lookup_column (table_info : TableInfo)
  (schema_name table_name col_name : string) : option Column :=
  match lookup_table table_info schema_name table_name with
  | Some t => get (columns t) col_name
  | None => None
  end.

(** A row of the table [schema_name.table_name]. *)
Definition of_table (schema_name table_name : string) (row : Row) : Prop :=
  r_schema_name row = schema_name /\ r_table_name row = table_name.

(** The native type as the catalog shows it: [bit(n)] for a bit string
    wider than one, the type of the metadata query otherwise. *)
Definition sql_datatype_text (c : Column) : string :=
  match character_maximum_length c with
  | Some n =>
      if (sql_data_type c =? "bit") && (1 <? n)%Z
      then "bit(" ++ str_of_int n ++ ")"
      else sql_data_type c
  | None => sql_data_type c
  end.

(** The inclusion of a discovered column. *)
Definition inclusion_of (c : Column) : string :=
  match canonical_type c with
  | None => "unsupported"
  | Some _ => if truthy_bool (is_primary_key c) then "automatic" else "available"
  end.

(** The names of the primary-key columns, in the order of the columns. *)
Definition primary_keys (columns : dict string Column) : list string :=
  map fst (filter (fun ci => truthy_bool (is_primary_key (snd ci))) columns).

(** The breadcrumb of a column. *)
Definition column_breadcrumb (c : string) : Breadcrumb := ["properties"; c].

(** The three writes of one column of the metadata loop. *)
Definition column_writes (mdata : MdMap) (c : string) (col : Column)
  (sch : Schema) : MdMap :=
  write
    (write
       (write mdata (column_breadcrumb c) "sql-datatype"
          (VStr (sql_datatype_text col)))
       (column_breadcrumb c) "inclusion"
       (VStr (match type sch with
              | None => "unsupported"
              | Some _ =>
                  if truthy_bool (is_primary_key col)
                  then "automatic" else "available"
              end)))
    (column_breadcrumb c) "selected-by-default"
    (VBool (match type sch with None => false | Some _ => true end)).

End Spec.

Import Spec.

(* ================================================================== *)
(** * Concrete inputs *)
(* ================================================================== *)

Module Examples.

Local Open Scope Z_scope.

(** [amount NUMERIC(50, 40)]: the scale exceeds the cap. *)
Definition amount : Column :=
  {| column_name := "amount"; is_primary_key := None;
     sql_data_type := "numeric"; character_maximum_length := None;
     numeric_precision := Some 50; numeric_scale := Some 40 |}.

(** [id integer PRIMARY KEY] *)
Definition id : Column :=
  {| column_name := "id"; is_primary_key := Some true;
     sql_data_type := "integer"; character_maximum_length := None;
     numeric_precision := Some 32; numeric_scale := Some 0 |}.

(** [name character varying(20)], in no index. *)
Definition name : Column :=
  {| column_name := "name"; is_primary_key := None;
     sql_data_type := "character varying";
     character_maximum_length := Some 20;
     numeric_precision := None; numeric_scale := None |}.

(** A descriptor of the integer family with a null precision. *)
Definition counter : Column :=
  {| column_name := "counter"; is_primary_key := Some false;
     sql_data_type := "bigint"; character_maximum_length := None;
     numeric_precision := None; numeric_scale := None |}.

(** [flags bit(8)] *)
Definition flags : Column :=
  {| column_name := "flags"; is_primary_key := None;
     sql_data_type := "bit"; character_maximum_length := Some 8;
     numeric_precision := None; numeric_scale := None |}.

(** ** Clusters *)

Definition a_row (schema_name table_name : string) (c : Column) : Row :=
  {| r_row_count := 10; r_is_view := false; r_schema_name := schema_name;
     r_table_name := table_name; r_col_info := c |}.

(** Two databases with a table of the same schema and name. *)
Definition shop : list Database :=
  [ {| datname := "sales";
       rows := [a_row "public" "orders" id; a_row "public" "orders" amount;
                a_row "public" "customers" name] |};
    {| datname := "hr"; rows := [a_row "public" "orders" id] |} ].

(** Two databases whose names and schema names hold hyphens. *)
Definition hyphens : list Database :=
  [ {| datname := "x-y"; rows := [a_row "z" "t" id] |};
    {| datname := "x"; rows := [a_row "y-z" "t" id] |} ].

(** A database in which the query names the key column of [orders] twice,
    once for its primary key and once for another index, and gives the
    later rows of [orders] another row count. *)
Definition id_in_other_index : Column :=
  {| column_name := "id"; is_primary_key := Some false;
     sql_data_type := "integer"; character_maximum_length := None;
     numeric_precision := Some 32; numeric_scale := Some 0 |}.

Definition a_later_row (schema_name table_name : string) (c : Column) : Row :=
  {| r_row_count := 99; r_is_view := true; r_schema_name := schema_name;
     r_table_name := table_name; r_col_info := c |}.

Definition indexed : Database :=
  {| datname := "sales";
     rows := [a_row "public" "customers" name;
              a_row "public" "orders" id;
              a_later_row "public" "orders" id_in_other_index;
              a_later_row "public" "orders" flags] |}.

(** The entries a successful discovery of one database returns (none if it
    raises). *)
Definition entries_of (db : Database) : list CatalogEntry :=
  match snd (discover_db db ([] : list LogRecord)) with
  | inr entries => entries
  | inl _ => []
  end.

(** The catalog a successful discovery returns (empty if it raises). *)
Definition discovered (cluster : list Database) : Catalog :=
  match snd (do_discovery cluster ([] : list LogRecord)) with
  | inr catalog => catalog
  | inl _ => {| streams := [] |}
  end.

(** ** Streams, catalogs and strategies *)

(** A table with one key column [id], selected or not, with or without a
    replication method of its own. *)
Definition a_stream (tap_stream_id : string) (selected : bool)
  (replication_method : pyval) (is_view : bool) (inclusion : string)
  : CatalogEntry :=
  {| table := tap_stream_id;
     stream := tap_stream_id;
     metadata :=
       [ ([], [("selected", VBool selected);
               ("replication-method", replication_method);
               ("is-view", VBool is_view);
               ("database-name", VStr "db");
               ("table-key-properties", VList [VStr "id"])]);
         (["properties"; "id"], [("inclusion", VStr inclusion)]) ];
     tap_stream_id := tap_stream_id;
     schema :=
       mkSchema (Some (TypeName "object"))
         (Some [("id", mkSchema (Some (TypeList ["integer"])) None
                         None None None None None None None)])
         None None None None None None None |}.

Definition full (tap_stream_id : string) : CatalogEntry :=
  a_stream tap_stream_id true (VStr "FULL_TABLE") false "automatic".

(** A database with one view, and its entry. *)
Definition reports : Database :=
  {| datname := "sales";
     rows := [a_later_row "public" "report" name] |}.

Definition report_entry : CatalogEntry :=
  nth 0 (entries_of reports) (full "").

(** The entry of [public.orders] in the discovery of [indexed]. *)
Definition orders_entry : CatalogEntry :=
  nth 1 (entries_of indexed) (full "").

Definition log_based (tap_stream_id : string) : CatalogEntry :=
  a_stream tap_stream_id true (VStr "LOG_BASED") false "automatic".

(** A log-based view, two tables whose only column is unsupported, and two
    tables with a replication method the tap does not know. *)
Definition view : CatalogEntry :=
  a_stream "V" true (VStr "LOG_BASED") true "automatic".


Definition log_based_no_columns : CatalogEntry :=
  a_stream "N" true (VStr "LOG_BASED") false "unsupported".

Definition incremental : CatalogEntry :=
  a_stream "I" true (VStr "INCREMENTAL") false "automatic".


(** Five selected streams and one that is not, out of order. *)
Definition abxyz : Catalog :=
  {| streams := [full "Z"; full "A"; a_stream "C" false VNone false "automatic";
                 full "Y"; full "X"; full "B"] |}.

(** One selected table. *)
Definition only_a : Catalog := {| streams := [full "A"] |}.

Definition no_state : State := {| currently_syncing := None; bookmarks := [] |}.

Definition resume_at (marker : string) : State :=
  {| currently_syncing := Some marker; bookmarks := [] |}.

(** The cluster of the examples is its current log position; a strategy
    writes one line per call.  A full-table scan leaves its [xmin] in the
    state and the log moves on by five while it runs. *)
Definition lr : logical_replication.t Z string :=
  {| logical_replication.fetch_current_lsn := fun _ w => ([], w, inr (VInt w));
     logical_replication.add_automatic_properties := fun s w => ([], w, inr s);
     logical_replication.sync_table := fun _ s state _ _ w =>
       ([("changes of " ++ stream s)%string], w,
        inr (write_bookmark state (tap_stream_id s) "lsn" (VInt w))) |}.

Definition ft : full_table.t Z string :=
  {| full_table.sync_view := fun _ s state _ _ w =>
       ([("rows of view " ++ stream s)%string], w, inr state);
     full_table.sync_table := fun _ s state _ _ w =>
       ([("rows of " ++ stream s)%string], w + 5,
        inr (write_bookmark state (tap_stream_id s) "xmin" (VInt 7))) |}.

(** A full-table strategy whose scan of a table breaks off after one
    line. *)
Definition ft_fails : full_table.t Z string :=
  {| full_table.sync_view := fun _ s state _ _ w =>
       ([("rows of view " ++ stream s)%string], w, inr state);
     full_table.sync_table := fun _ s state _ _ w =>
       ([("some rows of " ++ stream s)%string], w + 1,
        inl (Exception "connection lost")) |}.

(** A selected stream whose schema has no properties. *)
Definition no_properties : CatalogEntry :=
  {| table := "P"; stream := "P";
     metadata := [ ([], [("selected", VBool true)]) ];
     tap_stream_id := "P";
     schema := Schema_ |}.

(** The state after a first run of the log-based table [L]. *)
Definition synced_to (lsn : Z) : State :=
  {| currently_syncing := None; bookmarks := [("L", [("lsn", VInt lsn)])] |}.

Definition env0 : Env Z string := {| world := 100; sink := []; logs := [] |}.

Definition conn_config0 : ConnConfig :=
  [("host", VStr "localhost"); ("dbname", VStr "postgres")].

End Examples.


(* ================================================================== *)
(** * The order on strings *)
(* ================================================================== *)

Lemma ascii_compare_refl (a : ascii) : Ascii.compare a a = Eq.
Proof. unfold Ascii.compare. apply N.compare_refl. Qed.

Lemma string_compare_refl (s : string) : String.compare s s = Eq.
Proof.
  induction s as [|a s IH]; simpl; [reflexivity|].
  now rewrite ascii_compare_refl.
Qed.

Lemma string_compare_trans (c : comparison) (s1 s2 s3 : string) :
  String.compare s1 s2 = c -> String.compare s2 s3 = c ->
  String.compare s1 s3 = c.
Proof.
  revert c s2 s3.
  induction s1 as [|a1 s1 IH]; intros c [|a2 s2] [|a3 s3]; simpl;
    try congruence.
  unfold Ascii.compare.
  destruct (N_of_ascii a1 ?= N_of_ascii a2)%N eqn:E12;
  destruct (N_of_ascii a2 ?= N_of_ascii a3)%N eqn:E23;
    try congruence.
  - apply N.compare_eq_iff in E12, E23.
    rewrite E12, E23, N.compare_refl. apply IH.
  - apply N.compare_eq_iff in E12. rewrite E12, E23. congruence.
  - apply N.compare_eq_iff in E12. rewrite E12, E23. congruence.
  - apply N.compare_eq_iff in E23. rewrite <- E23, E12. congruence.
  - intros <- _.
    assert (H : (N_of_ascii a1 ?= N_of_ascii a3)%N = Lt)
      by exact (N.lt_trans _ _ _ E12 E23).
    now rewrite H.
  - apply N.compare_eq_iff in E23. rewrite <- E23, E12. congruence.
  - intros <- _.
    assert (H : (N_of_ascii a1 ?= N_of_ascii a3)%N = Gt).
    { apply N.compare_gt_iff.
      apply N.compare_gt_iff in E12. apply N.compare_gt_iff in E23.
      exact (N.lt_trans _ _ _ E23 E12). }
    now rewrite H.
Qed.

Lemma leb_refl (s : string) : (s <=? s) = true.
Proof. unfold String.leb. now rewrite string_compare_refl. Qed.

Lemma leb_trans (s1 s2 s3 : string) :
  (s1 <=? s2) = true -> (s2 <=? s3) = true -> (s1 <=? s3) = true.
Proof.
  unfold String.leb.
  destruct (String.compare s1 s2) eqn:E12; try discriminate;
  destruct (String.compare s2 s3) eqn:E23; try discriminate; intros _ _.
  - apply String.compare_eq_iff in E12, E23. subst.
    now rewrite string_compare_refl.
  - apply String.compare_eq_iff in E12. subst. now rewrite E23.
  - apply String.compare_eq_iff in E23. subst. now rewrite E12.
  - now rewrite (string_compare_trans Lt _ _ _ E12 E23).
Qed.

Lemma ltb_leb_neq (s1 s2 : string) :
  (s1 <? s2) = true <-> (s1 <=? s2) = true /\ s1 <> s2.
Proof.
  unfold String.ltb, String.leb.
  destruct (String.compare s1 s2) eqn:E; split; try easy.
  - apply String.compare_eq_iff in E. now intros [_ H].
  - intros _. split; [reflexivity|]. intros ->.
    now rewrite string_compare_refl in E.
Qed.

Lemma leb_false_ltb (s1 s2 : string) :
  (s1 <=? s2) = false -> (s2 <? s1) = true.
Proof.
  unfold String.ltb, String.leb. rewrite (String.compare_antisym s2 s1).
  now destruct (String.compare s1 s2).
Qed.

(* ================================================================== *)
(** * [sort] and [dropwhile] *)
(* ================================================================== *)

Section SortBy.

Context {A : Type} (key : A -> string).

Lemma insert_by_perm (x : A) (l : list A) :
  Permutation (insert_by key x l) (x :: l).
Proof.
  induction l as [|y l IH]; simpl; [reflexivity|].
  destruct (key x <=? key y); [reflexivity|].
  rewrite IH. apply perm_swap.
Qed.

Lemma sort_by_perm (l : list A) : Permutation (sort_by key l) l.
Proof.
  induction l as [|x l IH]; simpl; [reflexivity|].
  rewrite insert_by_perm. now constructor.
Qed.

Lemma insert_by_sorted (x : A) (l : list A) :
  StronglySorted (key_le key) l ->
  StronglySorted (key_le key) (insert_by key x l).
Proof.
  induction 1 as [|y l Hl IH Hy]; simpl.
  - constructor; constructor.
  - destruct (key x <=? key y) eqn:E.
    + constructor; [now constructor|].
      constructor; [exact E|].
      eapply Forall_impl; [|exact Hy].
      intros z Hz. unfold key_le in *. eapply leb_trans; eassumption.
    + constructor; [exact IH|].
      apply (Permutation_Forall (x := x :: l)).
      * symmetry. apply insert_by_perm.
      * constructor; [|exact Hy].
        unfold key_le. apply leb_false_ltb in E.
        apply ltb_leb_neq in E. tauto.
Qed.

Lemma sort_by_sorted (l : list A) : StronglySorted (key_le key) (sort_by key l).
Proof.
  induction l as [|x l IH]; simpl; [constructor|].
  now apply insert_by_sorted.
Qed.

(** The sort is stable: the elements of one key keep their order. *)
Lemma insert_by_stable (k : string) (x : A) (l : list A) :
  filter (fun y => key y =? k) (insert_by key x l) =
  filter (fun y => key y =? k) (x :: l).
Proof.
  induction l as [|y l IH]; [reflexivity|].
  cbn [insert_by]. destruct (key x <=? key y) eqn:E; [reflexivity|].
  cbn [filter] in *. rewrite IH.
  destruct (key x =? k) eqn:Ex, (key y =? k) eqn:Ey; try reflexivity.
  apply String.eqb_eq in Ex, Ey. rewrite Ex, Ey, leb_refl in E. discriminate.
Qed.

Lemma sort_by_stable (k : string) (l : list A) :
  filter (fun y => key y =? k) (sort_by key l) =
  filter (fun y => key y =? k) l.
Proof.
  induction l as [|x l IH]; [reflexivity|].
  cbn [sort_by]. rewrite insert_by_stable. cbn [filter]. now rewrite IH.
Qed.

End SortBy.

Section DropWhile.

Context {A : Type} (p : A -> bool).

Lemma takewhile_dropwhile (l : list A) : l = takewhile p l ++ dropwhile p l.
Proof.
  induction l as [|x l IH]; simpl; [reflexivity|].
  destruct (p x); simpl; congruence.
Qed.



Lemma dropwhile_all (l : list A) :
  Forall (fun x => p x = true) l -> dropwhile p l = [].
Proof.
  induction 1 as [|x l Hx _ IH]; simpl; [reflexivity|]. now rewrite Hx.
Qed.


End DropWhile.




(* ================================================================== *)
(** * The type mapper: theorems *)
(* ================================================================== *)

(** Case analysis on the lower-cased type name: one case per literal the
    program compares it with, and the case where it is none of them. *)
Ltac by_type t :=
  repeat match goal with
  | |- context [String.eqb t ?lit] =>
      let E := fresh "E" in
      destruct (String.eqb t lit) eqn:E;
      [ apply String.eqb_eq in E; subst t | ]
  end.

Ltac unfold_mapper :=
  unfold schema_for_column, canonical_type, integer_family, in_strs,
    INTEGER_TYPES, FLOAT_TYPES, JSON_TYPES;
  cbn [existsb].

(** One run of [capped]: the warning is logged exactly when the value is
    null or above the cap, and the result is the minimum with the cap. *)
Lemma capped_run (x : option Z) (cap : Z) (w : string) (logs : list LogRecord) :
  capped x cap w logs =
  (logs ++ (if exceeds x cap then [warning w] else []),
   inr (match x with Some z => Z.min z cap | None => cap end)).
Proof.
  unfold capped, exceeds, warning.
  destruct x as [z|]; [|reflexivity].
  rewrite Z.gtb_ltb.
  destruct (Z.ltb_spec cap z) as [Hlt|Hge]; unfold bind, log, ret; simpl.
  - rewrite Z.min_r by lia. reflexivity.
  - rewrite app_nil_r, Z.min_l by lia. reflexivity.
Qed.




(** The amendment of C3 is tight: without a precision, a column of the
    integer family always raises. *)
Lemma schema_for_column_integer_null (c : Column) (logs : list LogRecord) :
  integer_family c = true -> numeric_precision c = None ->
  exists e, schema_for_column c logs = (logs, inl e).
Proof.
  unfold integer_family, schema_for_column. intros -> ->. eexists. reflexivity.
Qed.



(** The canonical types are the four of the data model. *)
Lemma canonical_type_not_null (c : Column) (t : string) :
  canonical_type c = Some t -> t <> "null".
Proof.
  unfold_mapper. generalize (lower (sql_data_type c)) as u. intros u.
  by_type u; cbn;
    try destruct (eq_int (character_maximum_length c) 1);
    intros H; inversion H; discriminate.
Qed.

(** The type of the schema returned is the canonical type of the mapping
    table, made nullable by [nullable_column]; it is absent exactly for the
    unsupported types. *)
Lemma schema_for_column_type (c : Column) (logs logs' : list LogRecord)
  (r : Schema) :
  schema_for_column c logs = (logs', inr r) ->
  type r =
  option_map (fun t => TypeList (nullable_column t (is_primary_key c)))
    (canonical_type c).
Proof.
  unfold_mapper. generalize (lower (sql_data_type c)) as u. intros u.
  by_type u; cbn.
  all: try (destruct (numeric_precision c); cbn; intros H; inversion H;
            reflexivity).
  all: try (destruct (eq_int (character_maximum_length c) 1); cbn;
            intros H; inversion H; reflexivity).
  - unfold bind at 1. rewrite capped_run.
    unfold bind at 1. rewrite capped_run.
    intros H; inversion H; reflexivity.
Qed.

(** C5: for a column of a supported native type, of canonical type [t], the
    type set produced is [[t]] when the column is a primary key and
    [["null"; t]] otherwise; the type set of a primary key has no
    ["null"]. *)
Theorem type_set_by_primary_key (c : Column) (logs logs' : list LogRecord)
  (r : Schema) (t : string) :
  schema_for_column c logs = (logs', inr r) ->
  canonical_type c = Some t ->
  type r = Some (TypeList (if truthy_bool (is_primary_key c)
                           then [t] else ["null"; t]))
  /\ (truthy_bool (is_primary_key c) = true ->
      type r = Some (TypeList [t]) /\ ~ In "null" [t]).
Proof.
  intros Hrun Ht.
  pose proof (schema_for_column_type _ _ _ _ Hrun) as Hty.
  rewrite Ht in Hty. cbn in Hty. unfold nullable_column in Hty.
  split; [exact Hty|].
  intros Hpk. rewrite Hpk in Hty. split; [exact Hty|].
  intros [H|[]]. exact (canonical_type_not_null c t Ht H).
Qed.

Lemma type_set_by_primary_key_witness :
  exists r,
    schema_for_column Examples.id ([] : list LogRecord) = ([], inr r) /\
    canonical_type Examples.id = Some "integer" /\
    type r = Some (TypeList ["integer"]) /\ ~ In "null" ["integer"].
Proof.
  eexists. split; [cbv; reflexivity|]. split; [reflexivity|].
  exact (proj2 (type_set_by_primary_key Examples.id [] [] _ "integer"
                  eq_refl eq_refl) eq_refl).
Defined.

(** A column that is in no index (a null [is_primary_key]) is nullable. *)
Example name_is_nullable :
  exists r,
    schema_for_column Examples.name ([] : list LogRecord) = ([], inr r) /\
    type r = Some (TypeList ["null"; "string"]) /\ maxLength r = Some 20%Z.
Proof. eexists. split; [cbv; reflexivity | split; reflexivity]. Qed.

(** [precision = 32] gives the bounds of a 32-bit integer. *)
Example id_bounds :
  exists r,
    schema_for_column Examples.id ([] : list LogRecord) = ([], inr r) /\
    minimum r = Some (PInt (-2147483648)) /\
    maximum r = Some (PInt 2147483647).
Proof. eexists. split; [cbv; reflexivity | split; reflexivity]. Qed.

(* ================================================================== *)
(** * The orchestrator: which streams a run processes *)
(* ================================================================== *)





(** The loop of [do_sync] only meets streams that are selected. *)
Lemma resumed_streams_selected (catalog : Catalog) (state : State) :
  Forall selected (resumed_streams catalog state).
Proof.
  assert (Hsel : Forall selected (selected_streams catalog)).
  { apply Forall_forall. intros s Hs. unfold selected_streams in Hs.
    apply (Permutation_in _ (sort_by_perm tap_stream_id _)) in Hs.
    now apply filter_In in Hs. }
  unfold resumed_streams.
  destruct (truthy_str (get_currently_syncing state)); [|exact Hsel].
  rewrite (takewhile_dropwhile
             (fun s => ne_str (tap_stream_id s) (get_currently_syncing state))
             (selected_streams catalog)) in Hsel.
  now apply Forall_app in Hsel.
Qed.

Section Resume.

Context {World X : Type}.
Context {LR : logical_replication.t World X} {FT : full_table.t World X}.


End Resume.


(** The run of the example processes [X], [Y] and [Z], in this order. *)
Example resumed_run_processes_xyz :
  @processed Z string Examples.lr Examples.ft Examples.conn_config0
    Examples.abxyz VNone (Examples.resume_at "X") Examples.env0 =
  [Examples.full "X"; Examples.full "Y"; Examples.full "Z"].
Proof. reflexivity. Qed.

Section Unmatched.

Context {World X : Type}.
Context {LR : logical_replication.t World X} {FT : full_table.t World X}.

(** C10, as amended: when [currently_syncing] is a non-empty string that
    is the [tap_stream_id] of no selected stream, the loop of [do_sync]
    has nothing to iterate: the run returns at once, with no message, no
    log record, and the state as it was. *)
Theorem unmatched_marker_syncs_nothing (catalog : Catalog) (state : State)
  (marker : string) (conn_config : ConnConfig)
  (default_replication_method : pyval) (env : Env World X) :
  get_currently_syncing state = Some marker ->
  marker <> "" ->
  ~ In marker (map tap_stream_id (selected_streams catalog)) ->
  resumed_streams catalog state = [] /\
  do_sync conn_config catalog default_replication_method state env =
  (env, inr (conn_config, state)).
Proof.
  intros Hmarker Hne Hnot.
  assert (Hnil : resumed_streams catalog state = []).
  { unfold resumed_streams. rewrite Hmarker. cbn [truthy_str ne_str].
    apply String.eqb_neq in Hne. rewrite Hne. simpl.
    apply dropwhile_all. apply Forall_forall. intros s Hs.
    apply negb_true_iff, String.eqb_neq. intros Heq. apply Hnot.
    rewrite <- Heq. now apply in_map. }
  split; [exact Hnil|]. unfold do_sync. rewrite Hnil. reflexivity.
Qed.

End Unmatched.

Lemma unmatched_marker_syncs_nothing_witness :
  resumed_streams Examples.abxyz (Examples.resume_at "M") = [] /\
  @do_sync Z string Examples.lr Examples.ft Examples.conn_config0
    Examples.abxyz VNone (Examples.resume_at "M") Examples.env0 =
  (Examples.env0, inr (Examples.conn_config0, Examples.resume_at "M")).
Proof.
  refine (@unmatched_marker_syncs_nothing Z string Examples.lr Examples.ft
            Examples.abxyz (Examples.resume_at "M") "M" Examples.conn_config0
            VNone Examples.env0 eq_refl _ _).
  - discriminate.
  - cbv. intros H. repeat (destruct H as [H|H]; [discriminate H|]). exact H.
Defined.

(** C10, as stated, fails: an empty string is a non-null marker that names
    no stream, and it is false in the condition that guards [dropwhile]:
    every selected stream is processed and its messages are written. *)
Lemma empty_marker_syncs_everything :
  get_currently_syncing (Examples.resume_at "") = Some "" /\
  ~ In "" (map tap_stream_id (selected_streams Examples.only_a)) /\
  resumed_streams Examples.only_a (Examples.resume_at "") = [Examples.full "A"] /\
  sink (fst (@do_sync Z string Examples.lr Examples.ft Examples.conn_config0
               Examples.only_a VNone (Examples.resume_at "") Examples.env0)) =
  [ SchemaMessage "A" (schema (Examples.full "A")) (VList [VStr "id"]) [];
    Passthrough "rows of A";
    StateMessage
      {| currently_syncing := None;
         bookmarks := [("A", [("xmin", VInt 7)])] |} ].
Proof.
  split; [reflexivity|]. split; [|split; reflexivity].
  cbv. intros [H|[]]. discriminate H.
Qed.

(* ================================================================== *)
(** * Dictionaries and bookmarks *)
(* ================================================================== *)

Section DictLaws.

Context {K V : Type} `{Key K}.

Lemma keqb_refl (k : K) : keqb k k = true.
Proof. now apply keqb_eq. Qed.

Lemma keqb_neq (k k' : K) : k <> k' -> keqb k k' = false.
Proof.
  intros Hne. destruct (keqb k k') eqn:E; [|reflexivity].
  apply keqb_eq in E. contradiction.
Qed.

Lemma get_set_same (d : dict K V) (k : K) (v : V) :
  get (set d k v) k = Some v.
Proof.
  induction d as [|[k' v'] d IH]; simpl.
  - now rewrite keqb_refl.
  - destruct (keqb k k') eqn:E; simpl; rewrite E; [reflexivity | exact IH].
Qed.

Lemma get_set_other (d : dict K V) (k q : K) (v : V) :
  k <> q -> get (set d k v) q = get d q.
Proof.
  intros Hne. induction d as [|[k' v'] d IH]; simpl.
  - rewrite keqb_neq; [reflexivity | congruence].
  - destruct (keqb k k') eqn:E; simpl.
    + apply keqb_eq in E. subst k'.
      rewrite keqb_neq; [reflexivity | congruence].
    + now rewrite IH.
Qed.

End DictLaws.

Lemma get_bookmark_written (state : State) (tap_stream_id key : string)
  (val : pyval) :
  get_bookmark (write_bookmark state tap_stream_id key val) tap_stream_id key
  = val.
Proof.
  unfold get_bookmark, write_bookmark, get_default. simpl.
  now rewrite !get_set_same.
Qed.

Lemma get_bookmark_other_key (state : State) (tap_stream_id key key' : string)
  (val : pyval) :
  key <> key' ->
  get_bookmark (write_bookmark state tap_stream_id key val) tap_stream_id key'
  = get_bookmark state tap_stream_id key'.
Proof.
  intros Hne. unfold get_bookmark, write_bookmark, get_default. simpl.
  rewrite get_set_same, get_set_other by exact Hne. reflexivity.
Qed.

Lemma get_bookmark_other_stream (state : State) (id id' key key' : string)
  (val : pyval) :
  id <> id' ->
  get_bookmark (write_bookmark state id key val) id' key'
  = get_bookmark state id' key'.
Proof.
  intros Hne. unfold get_bookmark, write_bookmark, get_default. simpl.
  now rewrite get_set_other by exact Hne.
Qed.

(* ================================================================== *)
(** * The body of the loop *)
(* ================================================================== *)

(** The filter of [do_sync] is the condition on columns of the
    specification. *)
Lemma should_sync_column_desired (md_map : MdMap) (c : string) :
  should_sync_column md_map c = desired md_map c.
Proof.
  unfold should_sync_column, desired.
  destruct (eq_str (md_get md_map ["properties"; c] "inclusion") "unsupported");
  destruct (truthy (md_get md_map ["properties"; c] "selected"));
  destruct (eq_str (md_get md_map ["properties"; c] "inclusion") "automatic");
    reflexivity.
Qed.


Lemma some_desired_column_cons (stream : CatalogEntry) :
  some_desired_column stream -> desired_columns stream <> [].
Proof.
  intros (props & c & Hprops & Hin & Hc). unfold desired_columns, desired_columns_of.
  rewrite Hprops. intros Hnil.
  assert (Hc' : In c (filter (should_sync_column (to_map (metadata stream)))
                        (keys props))).
  { apply filter_In. split; [exact Hin|]. now rewrite should_sync_column_desired. }
  apply (Permutation_in _ (Permutation_sym (sort_by_perm (fun c => c) _)))
    in Hc'.
  now rewrite Hnil in Hc'.
Qed.

(** A selected stream has stream-level metadata. *)
Lemma selected_metadata (stream : CatalogEntry) :
  selected stream ->
  exists d, get (to_map (metadata stream)) [] = Some d.
Proof.
  unfold selected, is_selected_via_metadata, get_default.
  destruct (get (to_map (metadata stream)) []) as [d|]; [eauto|].
  simpl. discriminate.
Qed.

Section LoopBody.

Context {World X : Type}.
Context {LR : logical_replication.t World X} {FT : full_table.t World X}.

(** The body of the loop on a selected stream whose schema has properties:
    the two lookups cannot raise, and what remains is the chain of checks
    on the desired columns, the view, and the replication method. *)
Lemma sync_stream_selected (default_replication_method : pyval)
  (stream : CatalogEntry) (conn_config : ConnConfig) (state : State)
  (props : dict string Schema) (env : Env World X) :
  selected stream ->
  properties (schema stream) = Some props ->
  sync_stream default_replication_method stream (conn_config, state) env =
  let md_map := to_map (metadata stream) in
  let conn_config := at_stream stream conn_config in
  let state := marked stream state in
  let desired_columns := desired_columns stream in
  if (length desired_columns =? 0)%nat then
    (log WARNING "There are no columns selected for stream %s, skipping it"
       [VStr (tap_stream_id stream)] ;;
     ret (conn_config, state)) env
  else
    if eq_str (resolved_method default_replication_method stream) "LOG_BASED"
       && is_view_stream stream then
      (log WARNING
         "Logical Replication is NOT supported for views. skipping stream %s"
         [VStr (tap_stream_id stream)] ;;
       ret (conn_config, state)) env
    else
      (state <- dispatch (resolved_method default_replication_method stream)
                  conn_config stream state desired_columns md_map ;;
       write_message (StateMessage (set_currently_syncing state None)) ;;
       ret (conn_config, set_currently_syncing state None)) env.
Proof.
  intros Hsel Hprops. destruct (selected_metadata stream Hsel) as [d Hd].
  assert (Hdb : md_get (to_map (metadata stream)) [] "database-name" =
                get_default d "database-name" VNone).
  { unfold md_get. unfold get_default at 2. now rewrite Hd. }
  unfold sync_stream. rewrite Hd, Hprops.
  unfold desired_columns, at_stream, marked, resolved_method, is_view_stream.
  rewrite Hprops, Hdb.
  cbv beta iota zeta. unfold bind at 1 2, ret at 1 2.
  destruct (length _ =? 0)%nat; [reflexivity|].
  destruct (eq_str _ _ && _); reflexivity.
Qed.

(** ** What a computation adds to the sink *)

Lemma grows_ret {A} (P : Message X -> Prop) (a : A) :
  grows P (ret a : M (Env World X) A).
Proof. intros env. exists []. simpl. now rewrite app_nil_r. Qed.

Lemma grows_raise {A} (P : Message X -> Prop) (e : exn) :
  grows P (@raise (Env World X) A e).
Proof. intros env. exists []. simpl. now rewrite app_nil_r. Qed.

Lemma grows_log (P : Message X -> Prop) (l : Level) (f : string)
  (a : list pyval) :
  grows P (log l f a : M (Env World X) unit).
Proof. intros env. exists []. simpl. now rewrite app_nil_r. Qed.

Lemma grows_write (P : Message X -> Prop) (m : Message X) :
  P m -> grows P (write_message m : M (Env World X) unit).
Proof. intros Hm env. exists [m]. simpl. split; [reflexivity|]. now constructor. Qed.

Lemma grows_call {A} (P : Message X -> Prop) (c : Ext World X A) :
  (forall line, P (Passthrough line)) -> grows P (call c).
Proof.
  intros HP env. unfold call. destruct (c (world env)) as [[out w] r].
  exists (map Passthrough out). simpl. split; [reflexivity|].
  apply Forall_forall. intros m Hm. apply in_map_iff in Hm.
  destruct Hm as (line & <- & _). apply HP.
Qed.

Lemma grows_bind {A B} (P : Message X -> Prop) (m : M (Env World X) A)
  (f : A -> M (Env World X) B) :
  grows P m -> (forall a, grows P (f a)) -> grows P (bind m f).
Proof.
  intros Hm Hf env. unfold bind. destruct (Hm env) as (out & Hout & HP).
  destruct (m env) as [env1 [e|a]]; simpl in *.
  - exists out. now split.
  - destruct (Hf a env1) as (out' & Hout' & HP').
    exists (out ++ out'). rewrite Hout', Hout, app_assoc.
    split; [reflexivity|]. now apply Forall_app.
Qed.

Lemma grows_for_each {A B} (P : Message X -> Prop) (l : list A)
  (body : A -> B -> M (Env World X) B) (acc : B) :
  (forall x acc, grows P (body x acc)) -> grows P (for_each l body acc).
Proof.
  intros Hbody. revert acc. induction l as [|x l IH]; intros acc; simpl.
  - apply grows_ret.
  - apply grows_bind; [apply Hbody | exact IH].
Qed.

Ltac grow :=
  repeat first
    [ apply grows_ret | apply grows_raise | apply grows_log
    | apply grows_call; intros; reflexivity
    | apply grows_write; reflexivity
    | apply grows_bind; [|intros]
    | match goal with
      | |- grows _ (if ?b then _ else _) => destruct b
      | |- grows _ (match ?o with Some _ => _ | None => _ end) => destruct o
      end ].

Lemma send_schema_message_grows (stream : CatalogEntry) (b : list string) :
  grows not_state (send_schema_message stream b : M (Env World X) unit).
Proof. unfold send_schema_message. grow. Qed.

(** The dispatch writes schema messages and the lines of the strategies,
    and no state message. *)
Lemma dispatch_grows (replication_method : pyval) (conn_config : ConnConfig)
  (stream : CatalogEntry) (state : State) (desired_columns : list string)
  (md_map : MdMap) :
  grows not_state
    (dispatch replication_method conn_config stream state desired_columns md_map).
Proof.
  unfold dispatch, do_sync_logical_replication, do_sync_full_table.
  grow; apply send_schema_message_grows.
Qed.

Lemma grows_weaken {A} (P Q : Message X -> Prop) (m : M (Env World X) A) :
  (forall x, P x -> Q x) -> grows P m -> grows Q m.
Proof.
  intros HPQ Hm env. destruct (Hm env) as (out & Hout & HP).
  exists out. split; [exact Hout|]. eapply Forall_impl; eauto.
Qed.

(** Every state message one iteration of the loop writes carries a null
    marker. *)
Lemma sync_stream_grows (default_replication_method : pyval)
  (stream : CatalogEntry) (acc : ConnConfig * State) :
  grows checkpoint (sync_stream default_replication_method stream acc).
Proof.
  unfold sync_stream. destruct acc as [conn_config state].
  grow. eapply grows_weaken; [|apply dispatch_grows].
  intros [ | |]; simpl; (discriminate || trivial).
Qed.

Lemma do_sync_grows (conn_config : ConnConfig) (catalog : Catalog)
  (default_replication_method : pyval) (state : State) :
  grows checkpoint (do_sync conn_config catalog default_replication_method state).
Proof.
  unfold do_sync. apply grows_for_each. intros x acc. apply sync_stream_grows.
Qed.

(** ** A stream with no desired column *)


(** ** A replication method that is not supported *)


(** ** The checkpoint after a stream *)

(** C9: when the dispatch of a stream completes, the loop clears the marker
    of the state the dispatch returned and writes that state to the sink,
    as the one state message of the stream (the dispatch itself writes
    none), before any later stream is touched; the message carries a null
    marker and the bookmarks the dispatch returned; whatever follows in the
    run leaves it in the sink, and every state message written later has a
    null marker too. *)
Theorem checkpoint_after_dispatch (default_replication_method : pyval)
  (stream : CatalogEntry) (conn_config : ConnConfig) (state : State)
  (env env2 : Env World X) (state2 : State) :
  selected stream ->
  some_desired_column stream ->
  eq_str (resolved_method default_replication_method stream) "LOG_BASED"
    && is_view_stream stream = false ->
  dispatch (resolved_method default_replication_method stream)
    (at_stream stream conn_config) stream (marked stream state)
    (desired_columns stream) (to_map (metadata stream)) env
  = (env2, inr state2) ->
  let state3 := set_currently_syncing state2 None in
  let env3 :=
    {| world := world env2; sink := sink env2 ++ [StateMessage state3];
       logs := logs env2 |} in
  sync_stream default_replication_method stream (conn_config, state) env =
  (env3, inr (at_stream stream conn_config, state3))
  /\ currently_syncing state3 = None
  /\ bookmarks state3 = bookmarks state2
  /\ (exists out, sink env2 = sink env ++ out /\ Forall not_state out)
  /\ forall rest env' r,
       for_each (stream :: rest) (sync_stream default_replication_method)
         (conn_config, state) env = (env', r) ->
       exists later,
         sink env' = sink env2 ++ [StateMessage state3] ++ later /\
         Forall checkpoint later.
Proof.
  intros Hsel Hsome Hview Hdispatch state3 env3.
  assert (Hrun : sync_stream default_replication_method stream
                   (conn_config, state) env =
                 (env3, inr (at_stream stream conn_config, state3))).
  { pose proof (some_desired_column_cons stream Hsome) as Hcols.
    destruct Hsome as (props & c & Hprops & _).
    rewrite (sync_stream_selected _ _ _ _ props) by assumption.
    cbv zeta. destruct (desired_columns stream) as [|c0 cols]; [contradiction|].
    cbn [length Nat.eqb]. rewrite Hview.
    unfold bind at 1. rewrite Hdispatch. reflexivity. }
  split; [exact Hrun|]. split; [reflexivity|]. split; [reflexivity|]. split.
  - pose proof (dispatch_grows (resolved_method default_replication_method stream)
                  (at_stream stream conn_config) stream (marked stream state)
                  (desired_columns stream) (to_map (metadata stream)) env)
      as (out & Hout & Hnot).
    rewrite Hdispatch in Hout. now exists out.
  - intros rest env' r. cbn [for_each]. unfold bind at 1. rewrite Hrun.
    intros Hrest.
    pose proof (grows_for_each checkpoint rest
                  (sync_stream default_replication_method)
                  (at_stream stream conn_config, state3)
                  (sync_stream_grows default_replication_method) env3)
      as (later & Hlater & Hall).
    rewrite Hrest in Hlater. cbn [fst] in Hlater.
    exists later. split; [|exact Hall].
    rewrite Hlater. unfold env3. cbn [sink]. now rewrite <- app_assoc.
Qed.

(** ** The first run of a log-based stream *)

(** Without an [lsn] bookmark, [do_sync_logical_replication] reads the
    end of the log, then writes the plain schema message, then runs the
    full-table scan, then writes [xmin] and [lsn] into the state the scan
    returned. *)
Lemma do_sync_logical_replication_bootstrap (conn_config : ConnConfig)
  (stream : CatalogEntry) (state : State) (desired_columns : list string)
  (md_map : MdMap) (env : Env World X)
  (out1 : list X) (w1 : World) (end_lsn : pyval)
  (out2 : list X) (w2 : World) (state2 : State) :
  truthy (get_bookmark state (tap_stream_id stream) "lsn") = false ->
  logical_replication.fetch_current_lsn conn_config (world env)
  = (out1, w1, inr end_lsn) ->
  full_table.sync_table conn_config stream state desired_columns md_map w1
  = (out2, w2, inr state2) ->
  do_sync_logical_replication conn_config stream state desired_columns md_map env
  = ({| world := w2;
        sink := sink env ++ map Passthrough out1
                ++ [schema_message_of stream []] ++ map Passthrough out2;
        logs := logs env ++
          [{| level := INFO;
              fmt := "Stream %s is using logical replication. performing initial full table sync";
              args := [VStr (tap_stream_id stream)] |}] |},
     inr (write_bookmark
            (write_bookmark state2 (tap_stream_id stream) "xmin" VNone)
            (tap_stream_id stream) "lsn" end_lsn)).
Proof.
  intros Hlsn Hfetch Hscan. unfold do_sync_logical_replication.
  rewrite Hlsn. unfold bind, call, log, send_schema_message, write_message, ret.
  cbn [world sink logs emit_log Env_Logging]. rewrite Hfetch.
  cbn [world sink logs]. rewrite Hscan.
  unfold schema_message_of. cbn [app]. rewrite <- !app_assoc. reflexivity.
Qed.

(** When the scan raises, nothing is returned: no bookmark is written. *)
Lemma do_sync_logical_replication_scan_raises (conn_config : ConnConfig)
  (stream : CatalogEntry) (state : State) (desired_columns : list string)
  (md_map : MdMap) (env : Env World X)
  (out1 : list X) (w1 : World) (end_lsn : pyval)
  (out2 : list X) (w2 : World) (e : exn) :
  truthy (get_bookmark state (tap_stream_id stream) "lsn") = false ->
  logical_replication.fetch_current_lsn conn_config (world env)
  = (out1, w1, inr end_lsn) ->
  full_table.sync_table conn_config stream state desired_columns md_map w1
  = (out2, w2, inl e) ->
  snd (do_sync_logical_replication conn_config stream state desired_columns
         md_map env) = inl e.
Proof.
  intros Hlsn Hfetch Hscan. unfold do_sync_logical_replication.
  rewrite Hlsn. unfold bind, call, log, send_schema_message, write_message, ret.
  cbn [world sink logs emit_log Env_Logging]. rewrite Hfetch.
  cbn [world sink logs]. rewrite Hscan. reflexivity.
Qed.

(** C2, as amended: for a selected stream that is not a view, has a desired
    column, resolves to [LOG_BASED] and has no true [lsn] bookmark, an
    iteration in which the strategies return reads the end of the log on
    the database as it is before the scan, writes the schema message with
    no bookmark property, runs the full-table scan, and checkpoints a
    state in which the stream's [xmin] is null and its [lsn] is the
    position read before the scan. *)
Theorem first_run_writes_both_bookmarks (default_replication_method : pyval)
  (stream : CatalogEntry) (conn_config : ConnConfig) (state : State)
  (env : Env World X)
  (out1 : list X) (w1 : World) (end_lsn : pyval)
  (out2 : list X) (w2 : World) (state2 : State) :
  selected stream ->
  some_desired_column stream ->
  eq_str (resolved_method default_replication_method stream) "LOG_BASED" = true ->
  is_view_stream stream = false ->
  truthy (get_bookmark state (tap_stream_id stream) "lsn") = false ->
  logical_replication.fetch_current_lsn (at_stream stream conn_config)
    (world env) = (out1, w1, inr end_lsn) ->
  full_table.sync_table (at_stream stream conn_config) stream
    (marked stream state) (desired_columns stream) (to_map (metadata stream))
    w1 = (out2, w2, inr state2) ->
  let final :=
    set_currently_syncing
      (write_bookmark
         (write_bookmark state2 (tap_stream_id stream) "xmin" VNone)
         (tap_stream_id stream) "lsn" end_lsn)
      None in
  sync_stream default_replication_method stream (conn_config, state) env =
  ({| world := w2;
      sink := sink env ++ map Passthrough out1
              ++ [schema_message_of stream []] ++ map Passthrough out2
              ++ [StateMessage final];
      logs := logs env ++
        [{| level := INFO;
            fmt := "Stream %s is using logical replication. performing initial full table sync";
            args := [VStr (tap_stream_id stream)] |}] |},
   inr (at_stream stream conn_config, final))
  /\ get_bookmark final (tap_stream_id stream) "xmin" = VNone
  /\ get_bookmark final (tap_stream_id stream) "lsn" = end_lsn.
Proof.
  intros Hsel Hsome Hlog Hview Hlsn Hfetch Hscan final. split.
  - pose proof (some_desired_column_cons stream Hsome) as Hcols.
    destruct Hsome as (props & c & Hprops & _).
    rewrite (sync_stream_selected _ _ _ _ props) by assumption.
    cbv zeta. destruct (desired_columns stream) as [|c0 cols] eqn:Hd;
      [contradiction|].
    cbn [length Nat.eqb]. rewrite Hlog, Hview. cbn [andb].
    unfold bind at 1. unfold dispatch. rewrite Hlog.
    rewrite (do_sync_logical_replication_bootstrap
               (at_stream stream conn_config) stream (marked stream state)
               (c0 :: cols) (to_map (metadata stream)) env
               out1 w1 end_lsn out2 w2 state2 Hlsn Hfetch Hscan).
    unfold bind, write_message, ret. cbn [world sink logs].
    rewrite <- !app_assoc. reflexivity.
  - unfold final. split.
    + change (get_bookmark
                (write_bookmark
                   (write_bookmark state2 (tap_stream_id stream) "xmin" VNone)
                   (tap_stream_id stream) "lsn" end_lsn)
                (tap_stream_id stream) "xmin" = VNone).
      rewrite get_bookmark_other_key by discriminate.
      apply get_bookmark_written.
    + change (get_bookmark
                (write_bookmark
                   (write_bookmark state2 (tap_stream_id stream) "xmin" VNone)
                   (tap_stream_id stream) "lsn" end_lsn)
                (tap_stream_id stream) "lsn" = end_lsn).
      apply get_bookmark_written.
Qed.

End LoopBody.

(* ================================================================== *)
(** * The theorems at concrete runs *)
(* ================================================================== *)

Lemma full_has_desired_column (tap_stream_id : string) (method : pyval)
  (is_view : bool) :
  some_desired_column
    (Examples.a_stream tap_stream_id true method is_view "automatic").
Proof.
  eexists. exists "id". split; [reflexivity|]. split; [now left | reflexivity].
Defined.




Example abort_after_first_stream :
  @do_sync Z string Examples.lr Examples.ft Examples.conn_config0
    {| streams := [Examples.full "A"; Examples.incremental; Examples.full "Z"] |}
    VNone Examples.no_state Examples.env0
  = ({| world := 105%Z;
        sink :=
          [ SchemaMessage "A" (schema (Examples.full "A")) (VList [VStr "id"]) [];
            Passthrough "rows of A";
            StateMessage
              {| currently_syncing := None;
                 bookmarks := [("A", [("xmin", VInt 7)])] |} ];
        logs :=
          [{| level := INFO; fmt := "Stream %s is using full_table";
              args := [VStr "A"] |}] |},
     inl (Exception "only LOG_BASED and FULL_TABLE are supported right now :)")).
Proof. reflexivity. Qed.


(** The first run of the log-based table [L]: the log stands at 100 before
    the scan and at 105 after it; the bookmark is 100. *)
Lemma first_run_writes_both_bookmarks_witness :
  let final :=
    {| currently_syncing := None;
       bookmarks := [("L", [("xmin", VNone); ("lsn", VInt 100)])] |} in
  @sync_stream Z string Examples.lr Examples.ft VNone (Examples.log_based "L")
    (Examples.conn_config0, Examples.no_state) Examples.env0 =
  ({| world := 105%Z;
      sink :=
        [ SchemaMessage "L" (schema (Examples.log_based "L"))
            (VList [VStr "id"]) [];
          Passthrough "rows of L";
          StateMessage final ];
      logs :=
        [{| level := INFO;
            fmt := "Stream %s is using logical replication. performing initial full table sync";
            args := [VStr "L"] |}] |},
   inr ([("host", VStr "localhost"); ("dbname", VStr "db")], final))
  /\ get_bookmark final "L" "xmin" = VNone
  /\ get_bookmark final "L" "lsn" = VInt 100.
Proof.
  exact (@first_run_writes_both_bookmarks Z string Examples.lr Examples.ft
           VNone (Examples.log_based "L") Examples.conn_config0
           Examples.no_state Examples.env0
           [] 100%Z (VInt 100) ["rows of L"] 105%Z
           {| currently_syncing := Some "L";
              bookmarks := [("L", [("xmin", VInt 7)])] |}
           eq_refl (full_has_desired_column "L" (VStr "LOG_BASED") false)
           eq_refl eq_refl eq_refl eq_refl eq_refl).
Defined.

(** C2, as stated, fails: a log-based stream that is a view is skipped, and
    so is a log-based table with no desired column.  The run succeeds, no
    schema message is written, the log position is not read, and the stream
    has neither bookmark. *)
Lemma log_based_view_is_skipped :
  (resolved_method VNone Examples.view = VStr "LOG_BASED" /\
   get_bookmark Examples.no_state "V" "lsn" = VNone /\
   @do_sync Z string Examples.lr Examples.ft Examples.conn_config0
     {| streams := [Examples.view] |} VNone Examples.no_state Examples.env0
   = ({| world := 100%Z; sink := [];
         logs :=
           [{| level := WARNING;
               fmt := "Logical Replication is NOT supported for views. skipping stream %s";
               args := [VStr "V"] |}] |},
      inr ([("host", VStr "localhost"); ("dbname", VStr "db")],
           {| currently_syncing := Some "V"; bookmarks := [] |})))
  /\
  (resolved_method VNone Examples.log_based_no_columns = VStr "LOG_BASED" /\
   get_bookmark Examples.no_state "N" "lsn" = VNone /\
   @do_sync Z string Examples.lr Examples.ft Examples.conn_config0
     {| streams := [Examples.log_based_no_columns] |} VNone Examples.no_state
     Examples.env0
   = ({| world := 100%Z; sink := [];
         logs :=
           [{| level := WARNING;
               fmt := "There are no columns selected for stream %s, skipping it";
               args := [VStr "N"] |}] |},
      inr ([("host", VStr "localhost"); ("dbname", VStr "db")],
           {| currently_syncing := Some "N"; bookmarks := [] |}))).
Proof. repeat split. Qed.

(** The checkpoint of the full-table stream [A]. *)
Lemma checkpoint_after_dispatch_witness :
  let env2 :=
    {| world := 105%Z;
       sink :=
         [ SchemaMessage "A" (schema (Examples.full "A")) (VList [VStr "id"]) [];
           Passthrough "rows of A" ];
       logs :=
         [{| level := INFO; fmt := "Stream %s is using full_table";
             args := [VStr "A"] |}] |} in
  let state3 :=
    {| currently_syncing := None; bookmarks := [("A", [("xmin", VInt 7)])] |} in
  let env3 :=
    {| world := 105%Z; sink := sink env2 ++ [StateMessage state3];
       logs := logs env2 |} in
  @sync_stream Z string Examples.lr Examples.ft VNone (Examples.full "A")
    (Examples.conn_config0, Examples.no_state) Examples.env0 =
  (env3, inr ([("host", VStr "localhost"); ("dbname", VStr "db")], state3))
  /\ currently_syncing state3 = None
  /\ bookmarks state3 = [("A", [("xmin", VInt 7)])]
  /\ (exists out, sink env2 = sink Examples.env0 ++ out /\
                  Forall (fun m => is_state_message m = false) out)
  /\ forall rest env' r,
       for_each (Examples.full "A" :: rest)
         (@sync_stream Z string Examples.lr Examples.ft VNone)
         (Examples.conn_config0, Examples.no_state) Examples.env0 = (env', r) ->
       exists later,
         sink env' = sink env2 ++ [StateMessage state3] ++ later /\
         Forall checkpoint later.
Proof.
  exact (@checkpoint_after_dispatch Z string Examples.lr Examples.ft VNone
           (Examples.full "A") Examples.conn_config0 Examples.no_state
           Examples.env0
           {| world := 105%Z;
              sink :=
                [ SchemaMessage "A" (schema (Examples.full "A"))
                    (VList [VStr "id"]) [];
                  Passthrough "rows of A" ];
              logs :=
                [{| level := INFO; fmt := "Stream %s is using full_table";
                    args := [VStr "A"] |}] |}
           {| currently_syncing := Some "A";
              bookmarks := [("A", [("xmin", VInt 7)])] |}
           eq_refl (full_has_desired_column "A" (VStr "FULL_TABLE") false)
           eq_refl eq_refl).
Defined.

(* ================================================================== *)
(** * Discovery: the stream identifiers *)
(* ================================================================== *)

(** ** Keys of a dictionary *)

Section DictKeys.

Context {K V : Type} `{Key K}.

Lemma in_keys_set (d : dict K V) (k q : K) (v : V) :
  In q (keys (set d k v)) <-> q = k \/ In q (keys d).
Proof.
  induction d as [|[k' v'] d IH]; simpl.
  - intuition congruence.
  - destruct (keqb k k') eqn:E; simpl.
    + apply keqb_eq in E. subst k'. intuition congruence.
    + rewrite IH. intuition congruence.
Qed.

Lemma NoDup_keys_set (d : dict K V) (k : K) (v : V) :
  NoDup (keys d) -> NoDup (keys (set d k v)).
Proof.
  induction d as [|[k' v'] d IH]; simpl; intros Hd.
  - constructor; [intros [] | constructor].
  - inversion Hd as [|? ? Hnot Hd']; subst.
    destruct (keqb k k') eqn:E; simpl.
    + now constructor.
    + constructor; [|now apply IH].
      rewrite in_keys_set. intros [->|Hin]; [|contradiction].
      now rewrite keqb_refl in E.
Qed.

Lemma get_in_keys (d : dict K V) (k : K) (v : V) :
  get d k = Some v -> In k (keys d).
Proof.
  induction d as [|[k' v'] d IH]; simpl; [discriminate|].
  destruct (keqb k k') eqn:E.
  - apply keqb_eq in E. now left.
  - intros Hg. right. now apply IH.
Qed.

End DictKeys.

(** ** Inversion of successful computations *)

Lemma bind_inr {S A B} (m : M S A) (f : A -> M S B) (s s' : S) (b : B) :
  bind m f s = (s', inr b) ->
  exists s1 a, m s = (s1, inr a) /\ f a s1 = (s', inr b).
Proof.
  unfold bind. destruct (m s) as [s1 [e|a]]; [discriminate|]. eauto.
Qed.

Lemma item_inr {S K V} `{Key K} (d : dict K V) (k : K) (s s' : S) (v : V) :
  item d k s = (s', inr v) -> get d k = Some v /\ s' = s.
Proof.
  unfold item. destruct (get d k) as [v'|]; [|discriminate].
  unfold ret. intros Heq. inversion Heq. auto.
Qed.

(** ** The entries of one database *)

Section Entries.

Context {S : Type} `{Logging S}.

Lemma discover_table_id (database_name : string) (table_info : TableInfo)
  (schema_name table_name : string) (s s' : S) (entry : CatalogEntry) :
  discover_table database_name table_info schema_name table_name s
  = (s', inr entry) ->
  id_and_table entry =
  (stream_id database_name schema_name table_name, table_name).
Proof.
  unfold discover_table. intros Hrun.
  apply bind_inr in Hrun. destruct Hrun as (s1 & tables & _ & Hrun).
  apply bind_inr in Hrun. destruct Hrun as (s2 & t & _ & Hrun).
  apply bind_inr in Hrun. destruct Hrun as (s3 & column_schemas & _ & Hrun).
  apply bind_inr in Hrun. destruct Hrun as (s4 & mdata & _ & Hrun).
  unfold ret in Hrun. inversion Hrun. reflexivity.
Qed.

Lemma discover_tables_ids (database_name : string) (table_info : TableInfo)
  (schema_name : string) (table_names : list string)
  (entries : list CatalogEntry) (s s' : S) (result : list CatalogEntry) :
  for_each table_names
    (fun table_name entries =>
       entry <- discover_table database_name table_info
                  schema_name table_name ;;
       ret (entries ++ [entry]))
    entries s = (s', inr result) ->
  map id_and_table result =
  map id_and_table entries ++
  map (fun table_name =>
         (stream_id database_name schema_name table_name, table_name))
    table_names.
Proof.
  revert entries s. induction table_names as [|t ts IH]; intros entries s; simpl.
  - unfold ret. intros Heq. inversion Heq. now rewrite app_nil_r.
  - intros Hrun.
    apply bind_inr in Hrun. destruct Hrun as (s1 & entries1 & Hbody & Hrun).
    apply bind_inr in Hbody. destruct Hbody as (s2 & entry & Hentry & Hret).
    unfold ret in Hret. inversion Hret; subst.
    rewrite (IH _ _ Hrun), map_app. simpl.
    rewrite (discover_table_id _ _ _ _ _ _ _ Hentry), <- app_assoc.
    reflexivity.
Qed.

Lemma discover_columns_ids (database_name : string) (table_info : TableInfo)
  (s s' : S) (result : list CatalogEntry) :
  discover_columns database_name table_info s = (s', inr result) ->
  map id_and_table result =
  map (fun st => (stream_id database_name (fst st) (snd st), snd st))
    (tables_of table_info).
Proof.
  unfold discover_columns, tables_of.
  assert (Hgen : forall schema_names entries s s' result,
    for_each schema_names
      (fun schema_name entries =>
         tables <- item table_info schema_name ;;
         for_each (keys tables)
           (fun table_name entries =>
              entry <- discover_table database_name table_info
                         schema_name table_name ;;
              ret (entries ++ [entry]))
           entries)
      entries s = (s', inr result) ->
    map id_and_table result =
    map id_and_table entries ++
    map (fun st => (stream_id database_name (fst st) (snd st), snd st))
      (flat_map
         (fun schema_name =>
            map (fun table_name => (schema_name, table_name))
              (keys (get_default table_info schema_name [])))
         schema_names)).
  { induction schema_names as [|sn sns IH]; intros entries s0 s0' res; simpl.
    - unfold ret. intros Heq. inversion Heq. now rewrite app_nil_r.
    - intros Hrun.
      apply bind_inr in Hrun. destruct Hrun as (s1 & entries1 & Hbody & Hrun).
      apply bind_inr in Hbody. destruct Hbody as (s2 & tables & Hitem & Hinner).
      apply item_inr in Hitem. destruct Hitem as [Hget ->].
      rewrite (IH _ _ _ _ Hrun), (discover_tables_ids _ _ _ _ _ _ _ _ Hinner).
      unfold get_default. rewrite Hget, map_app, map_map, <- app_assoc.
      reflexivity. }
  intros Hrun. now rewrite (Hgen _ _ _ _ _ Hrun).
Qed.

End Entries.

(** ** The grouping of the rows *)

Lemma add_row_grouped (table_info : TableInfo) (row : Row) :
  grouped table_info -> grouped (add_row table_info row).
Proof.
  intros [Hkeys Htables]. unfold add_row.
  set (sn := r_schema_name row). set (tn := r_table_name row).
  set (ti1 := match get table_info sn with
              | Some _ => table_info
              | None => set table_info sn []
              end).
  assert (Hkeys1 : NoDup (keys ti1)).
  { unfold ti1. destruct (get table_info sn); [assumption|].
    now apply NoDup_keys_set. }
  assert (Htables1 : forall q, NoDup (keys (get_default ti1 q []))).
  { intros q. unfold ti1. destruct (get table_info sn) eqn:E; [apply Htables|].
    destruct (String.eqb_spec sn q) as [<-|Hne].
    - unfold get_default. rewrite get_set_same. constructor.
    - unfold get_default. rewrite get_set_other by exact Hne. apply Htables. }
  split.
  - now apply NoDup_keys_set.
  - intros q. destruct (String.eqb_spec sn q) as [<-|Hne].
    + unfold get_default at 1. rewrite get_set_same.
      set (tables := get_default ti1 sn []).
      assert (Ht : NoDup (keys tables)) by apply Htables1.
      set (tables1 := match get tables tn with
                      | Some _ => tables
                      | None => set tables tn _
                      end).
      assert (Ht1 : NoDup (keys tables1)).
      { unfold tables1. destruct (get tables tn); [assumption|].
        now apply NoDup_keys_set. }
      destruct (get tables1 tn); [now apply NoDup_keys_set | assumption].
    + unfold get_default at 1. rewrite get_set_other by exact Hne.
      apply Htables1.
Qed.

Lemma produce_table_info_grouped (rows : list Row) :
  grouped (produce_table_info rows).
Proof.
  unfold produce_table_info.
  assert (Hgen : forall ti, grouped ti -> grouped (fold_left add_row rows ti)).
  { induction rows as [|row rows IH]; intros ti Hti; simpl; [exact Hti|].
    apply IH. now apply add_row_grouped. }
  apply Hgen. split; [constructor|]. intros q. constructor.
Qed.

Lemma tables_of_NoDup (table_info : TableInfo) :
  grouped table_info -> NoDup (tables_of table_info).
Proof.
  intros [Hkeys Htables]. unfold tables_of.
  induction (keys table_info) as [|sn sns IH]; simpl; [constructor|].
  inversion Hkeys as [|? ? Hnot Hrest]; subst.
  apply NoDup_app; [| now apply IH |].
  - apply Finite.Injective_map_NoDup; [|apply Htables].
    intros t t' Heq. now inversion Heq.
  - intros [s t] Hin Hin'.
    apply in_map_iff in Hin. destruct Hin as (t0 & Heq & _).
    inversion Heq; subst.
    apply in_flat_map in Hin'. destruct Hin' as (s' & Hs' & Hin').
    apply in_map_iff in Hin'. destruct Hin' as (t1 & Heq' & _).
    inversion Heq'; subst. contradiction.
Qed.

(** ** The tables of the grouping are the tables of the rows *)

Lemma in_tables_of (table_info : TableInfo) (s t : string) :
  In (s, t) (tables_of table_info) <->
  In s (keys table_info) /\ In t (keys (get_default table_info s [])).
Proof.
  unfold tables_of. rewrite in_flat_map. split.
  - intros (s' & Hs' & Hin). apply in_map_iff in Hin.
    destruct Hin as (t' & Heq & Ht'). inversion Heq; subst. auto.
  - intros [Hs Ht]. exists s. split; [exact Hs|]. now apply in_map.
Qed.

Lemma add_row_tables (table_info : TableInfo) (row : Row) (s t : string) :
  In (s, t) (tables_of (add_row table_info row)) <->
  (s = r_schema_name row /\ t = r_table_name row) \/
  In (s, t) (tables_of table_info).
Proof.
  rewrite !in_tables_of. unfold add_row.
  set (sn := r_schema_name row). set (tn := r_table_name row).
  set (ti1 := match get table_info sn with
              | Some _ => table_info
              | None => set table_info sn []
              end).
  set (tables := get_default ti1 sn []).
  set (tables1 := match get tables tn with
                  | Some _ => tables
                  | None => set tables tn _
                  end).
  set (tables2 := match get tables1 tn with
                  | Some t0 => set tables1 tn _
                  | None => tables1
                  end).
  assert (Hkeys1 : forall q, In q (keys ti1) <-> q = sn \/ In q (keys table_info)).
  { intros q. unfold ti1. destruct (get table_info sn) eqn:E.
    - apply get_in_keys in E. intuition congruence.
    - apply in_keys_set. }
  assert (Htables : forall q,
            In q (keys tables) <->
            In sn (keys table_info) /\ In q (keys (get_default table_info sn []))).
  { intros q. unfold tables, ti1, get_default.
    destruct (get table_info sn) eqn:E.
    - rewrite E. apply get_in_keys in E. tauto.
    - rewrite get_set_same. simpl. tauto. }
  assert (Htables1 : forall q, In q (keys tables1) <-> q = tn \/ In q (keys tables)).
  { intros q. unfold tables1. destruct (get tables tn) eqn:E.
    - apply get_in_keys in E. intuition congruence.
    - apply in_keys_set. }
  assert (Htables2 : forall q, In q (keys tables2) <-> q = tn \/ In q (keys tables)).
  { intros q. unfold tables2. destruct (get tables1 tn) eqn:E.
    - rewrite in_keys_set, Htables1. tauto.
    - apply Htables1. }
  rewrite in_keys_set, Hkeys1.
  destruct (String.eqb_spec sn s) as [<-|Hne].
  - unfold get_default at 1. rewrite get_set_same, Htables2, Htables. tauto.
  - unfold get_default at 1. rewrite get_set_other by exact Hne.
    assert (Hsame : get ti1 s = get table_info s).
    { unfold ti1. destruct (get table_info sn); [reflexivity|].
      now apply get_set_other. }
    rewrite Hsame. fold (get_default table_info s []).
    intuition congruence.
Qed.

Lemma produce_table_info_tables (rows : list Row) (s t : string) :
  In (s, t) (tables_of (produce_table_info rows)) <->
  exists row, In row rows /\ r_schema_name row = s /\ r_table_name row = t.
Proof.
  unfold produce_table_info.
  assert (Hgen : forall ti,
            In (s, t) (tables_of (fold_left add_row rows ti)) <->
            (exists row, In row rows /\ r_schema_name row = s /\
                         r_table_name row = t) \/
            In (s, t) (tables_of ti)).
  { induction rows as [|row rows IH]; intros ti; simpl.
    - split; [now right | intros [(r & [] & _)|H]; exact H].
    - rewrite IH, add_row_tables. split.
      + intros [(r & Hr & Hs & Ht)|[[-> ->]|Hti]].
        * left. exists r. auto.
        * left. exists row. auto.
        * now right.
      + intros [(r & [<-|Hr] & Hs & Ht)|Hti].
        * right. left. auto.
        * left. exists r. auto.
        * right. now right. }
  rewrite Hgen. split; [intros [H|[]]; exact H | now left].
Qed.

(** A table of the cluster is a table of a row of one of its databases. *)
Lemma cluster_tables_rows (cluster : list Database) (d s t : string) :
  In (d, s, t) (cluster_tables cluster) <->
  exists db row,
    In db cluster /\ In row (rows db) /\ datname db = d /\
    r_schema_name row = s /\ r_table_name row = t.
Proof.
  unfold cluster_tables. rewrite in_flat_map. split.
  - intros (db & Hdb & Hin). apply in_map_iff in Hin.
    destruct Hin as ([s0 t0] & Heq & Hin). inversion Heq; subst.
    apply produce_table_info_tables in Hin.
    destruct Hin as (row & Hrow & Hs & Ht). exists db, row. auto.
  - intros (db & row & Hdb & Hrow & <- & <- & <-). exists db.
    split; [exact Hdb|]. apply in_map_iff.
    exists (r_schema_name row, r_table_name row). split; [reflexivity|].
    apply produce_table_info_tables. exists row. auto.
Qed.

(** ** Names without hyphens *)

Lemma split_at_hyphen (a a' b b' : string) :
  hyphen_free a -> hyphen_free a' ->
  (a ++ "-" ++ b)%string = (a' ++ "-" ++ b')%string -> a = a' /\ b = b'.
Proof.
  revert a'. induction a as [|c a IH]; intros [|c' a']; simpl.
  - intros _ _ Heq. now inversion Heq.
  - intros _ [Hc' _] Heq. inversion Heq. congruence.
  - intros [Hc _] _ Heq. inversion Heq. congruence.
  - intros [_ Ha] [_ Ha'] Heq. inversion Heq as [[Hc Hrest]].
    destruct (IH a' Ha Ha' Hrest) as [-> ->]. auto.
Qed.

Lemma stream_id_injective (d s t d' s' t' : string) :
  hyphen_free d -> hyphen_free s -> hyphen_free d' -> hyphen_free s' ->
  stream_id d s t = stream_id d' s' t' -> (d, s, t) = (d', s', t').
Proof.
  unfold stream_id. intros Hd Hs Hd' Hs' Heq.
  apply split_at_hyphen in Heq; [|assumption..]. destruct Heq as [-> Heq].
  apply split_at_hyphen in Heq; [|assumption..]. destruct Heq as [-> ->].
  reflexivity.
Qed.

(** ** The catalog of a cluster *)

Lemma cluster_tables_NoDup (cluster : list Database) :
  NoDup (map datname cluster) -> NoDup (cluster_tables cluster).
Proof.
  unfold cluster_tables. induction cluster as [|db dbs IH]; simpl; intros Hnd.
  - constructor.
  - inversion Hnd as [|? ? Hnot Hrest]; subst.
    apply NoDup_app; [| now apply IH |].
    + apply Finite.Injective_map_NoDup.
      * intros [s t] [s' t'] Heq. now inversion Heq.
      * apply tables_of_NoDup, produce_table_info_grouped.
    + intros [[d s] t] Hin Hin'.
      apply in_map_iff in Hin. destruct Hin as (st & Heq & _).
      inversion Heq; subst.
      apply in_flat_map in Hin'. destruct Hin' as (db' & Hdb' & Hin').
      apply in_map_iff in Hin'. destruct Hin' as (st' & Heq' & _).
      inversion Heq' as [[Hd Hs Ht]]. apply Hnot. rewrite <- Hd.
      now apply in_map.
Qed.

(** The identifier and the table of every entry of the catalog, in the
    order of the catalog. *)
Lemma do_discovery_ids (cluster : list Database) (logs logs' : list LogRecord)
  (catalog : Catalog) :
  do_discovery cluster logs = (logs', inr catalog) ->
  map id_and_table (streams catalog) =
  map (fun dst => (stream_id (fst (fst dst)) (snd (fst dst)) (snd dst), snd dst))
    (cluster_tables cluster).
Proof.
  unfold do_discovery. intros Hrun.
  apply bind_inr in Hrun. destruct Hrun as (l1 & [] & _ & Hrun).
  apply bind_inr in Hrun. destruct Hrun as (l2 & all_streams & Hloop & Hret).
  unfold ret in Hret. inversion Hret; subst. cbn [streams]. clear Hret.
  assert (Hgen : forall dbs acc (l l' : list LogRecord) res,
    for_each dbs
      (fun db all_streams =>
         log INFO "Discovering db %s" [VStr (datname db)] ;;
         db_streams <- discover_db db ;;
         ret (all_streams ++ db_streams))
      acc l = (l', inr res) ->
    map id_and_table res =
    map id_and_table acc ++
    map (fun dst =>
           (stream_id (fst (fst dst)) (snd (fst dst)) (snd dst), snd dst))
      (cluster_tables dbs)).
  { induction dbs as [|db dbs IH]; intros acc l l' res; simpl.
    - unfold ret. intros Heq. inversion Heq. now rewrite app_nil_r.
    - intros Hrun.
      apply bind_inr in Hrun. destruct Hrun as (la & acc1 & Hbody & Hrun).
      apply bind_inr in Hbody. destruct Hbody as (lb & [] & _ & Hbody).
      apply bind_inr in Hbody. destruct Hbody as (lc & db_streams & Hdb & Hret).
      unfold ret in Hret. inversion Hret; subst.
      unfold discover_db in Hdb. apply discover_columns_ids in Hdb.
      rewrite (IH _ _ _ _ Hrun), !map_app, Hdb, map_map, <- app_assoc.
      reflexivity. }
  now rewrite (Hgen _ _ _ _ _ Hloop).
Qed.

(** C6, as amended: every entry of the catalog of a discovery run has the
    identifier [database-schema-table] of a table of a database of the
    cluster, and every table has its entry; the identifiers are pairwise
    distinct when the database names are distinct and no database or
    schema name has a hyphen in it. *)
Theorem stream_ids_of_discovery (cluster : list Database)
  (logs logs' : list LogRecord) (catalog : Catalog) :
  do_discovery cluster logs = (logs', inr catalog) ->
  (forall e, In e (streams catalog) ->
     exists db row,
       In db cluster /\ In row (rows db) /\
       tap_stream_id e =
       (datname db ++ "-" ++ r_schema_name row ++ "-" ++ r_table_name row)%string
       /\ table e = r_table_name row)
  /\ (forall db row, In db cluster -> In row (rows db) ->
      In (stream_id (datname db) (r_schema_name row) (r_table_name row))
        (map tap_stream_id (streams catalog)))
  /\ map id_and_table (streams catalog) =
     map (fun dst =>
            (stream_id (fst (fst dst)) (snd (fst dst)) (snd dst), snd dst))
       (cluster_tables cluster)
  /\ (unambiguous cluster -> NoDup (map tap_stream_id (streams catalog))).
Proof.
  intros Hrun. pose proof (do_discovery_ids _ _ _ _ Hrun) as Hids.
  assert (Hmap : map tap_stream_id (streams catalog) =
                 map (fun dst => stream_id (fst (fst dst)) (snd (fst dst))
                                   (snd dst))
                   (cluster_tables cluster)).
  { replace (map tap_stream_id (streams catalog))
      with (map fst (map id_and_table (streams catalog)))
      by (rewrite map_map; reflexivity).
    rewrite Hids, map_map. reflexivity. }
  split; [|split; [|split; [exact Hids|]]].
  - intros e He. apply (in_map id_and_table) in He. rewrite Hids in He.
    apply in_map_iff in He. destruct He as ([[d s] t] & Heq & Hin).
    apply cluster_tables_rows in Hin.
    destruct Hin as (db & row & Hdb & Hrow & <- & <- & <-).
    exists db, row. cbn [fst snd] in Heq. unfold id_and_table in Heq.
    inversion Heq. auto.
  - intros db row Hdb Hrow. rewrite Hmap. apply in_map_iff.
    exists (datname db, r_schema_name row, r_table_name row).
    split; [reflexivity|]. apply cluster_tables_rows. exists db, row. auto.
  - intros [Hdbs Hnames]. rewrite Hmap.
    apply Finite.Injective_map_NoDup_in; [|now apply cluster_tables_NoDup].
    intros [[d s] t] [[d' s'] t'] Hin Hin' Heq. cbn [fst snd] in Heq.
    apply cluster_tables_rows in Hin, Hin'.
    destruct Hin as (db & row & Hdb & Hrow & <- & <- & <-).
    destruct Hin' as (db' & row' & Hdb' & Hrow' & <- & <- & <-).
    destruct (Hnames db Hdb) as [Hd Hs]. destruct (Hnames db' Hdb') as [Hd' Hs'].
    apply stream_id_injective in Heq; auto.
Qed.

(** ** The theorem at a concrete cluster *)

Example shop_is_unambiguous : unambiguous Examples.shop.
Proof.
  split.
  - repeat constructor; cbn; intuition discriminate.
  - intros db [<-|[<-|[]]]; split; cbn;
      try (repeat split; discriminate);
      intros row Hrow; repeat (destruct Hrow as [<-|Hrow]);
      try contradiction; cbn; repeat split; discriminate.
Qed.

(** The table [public.orders] exists in both databases: the database name
    tells the two entries apart. *)
Lemma stream_ids_of_discovery_witness :
  map id_and_table (streams (Examples.discovered Examples.shop)) =
  [ ("sales-public-orders", "orders");
    ("sales-public-customers", "customers");
    ("hr-public-orders", "orders") ]
  /\ NoDup (map tap_stream_id (streams (Examples.discovered Examples.shop))).
Proof.
  assert (Hrun : do_discovery Examples.shop ([] : list LogRecord) =
                 (fst (do_discovery Examples.shop []),
                  inr (Examples.discovered Examples.shop)))
    by (vm_compute; reflexivity).
  pose proof (stream_ids_of_discovery Examples.shop [] _ _ Hrun) as H.
  exact (conj (proj1 (proj2 (proj2 H)))
           (proj2 (proj2 (proj2 H)) shop_is_unambiguous)).
Defined.

(** C6, as stated, fails: the names are joined by hyphens and may hold
    hyphens themselves.  Table [z.t] of database [x-y] and table [y-z.t]
    of database [x] get the same identifier. *)
Lemma hyphenated_names_collide :
  NoDup (map datname Examples.hyphens) /\
  (exists logs' catalog,
     do_discovery Examples.hyphens ([] : list LogRecord) = (logs', inr catalog) /\
     map tap_stream_id (streams catalog) = ["x-y-z-t"; "x-y-z-t"] /\
     ~ NoDup (map tap_stream_id (streams catalog))).
Proof.
  split.
  - repeat constructor; cbn; intuition discriminate.
  - eexists. eexists. split; [vm_compute; reflexivity|].
    split; [reflexivity|].
    cbn. intros Hnd. inversion Hnd as [|? ? Hnot _]. apply Hnot. now left.
Qed.

(* ================================================================== *)
(** * More of the type mapper *)
(* ================================================================== *)

(** X1: a column of the integer family with precision [p >= 1] is mapped
    to the signed range of [p] bits, [-2^(p-1) .. 2^(p-1) - 1], with the
    type [integer]; nothing is logged. *)
Theorem integer_bounds (c : Column) (p : Z) (logs : list LogRecord) :
  integer_family c = true ->
  numeric_precision c = Some p ->
  (1 <= p)%Z ->
  schema_for_column c logs =
  (logs,
   inr {| type := Some (TypeList (nullable_column "integer" (is_primary_key c)));
          properties := None;
          minimum := Some (PInt (- 2 ^ (p - 1)));
          maximum := Some (PInt (2 ^ (p - 1) - 1));
          exclusiveMinimum := None;
          exclusiveMaximum := None;
          multipleOf := None;
          maxLength := None;
          format := None |}).
Proof.
  unfold integer_family, schema_for_column. intros -> -> Hp.
  unfold operand, bind, ret, pow.
  destruct (Z.ltb_spec (p - 1) 0) as [Hneg|_]; [lia|].
  cbn. repeat f_equal; lia.
Qed.

Lemma integer_bounds_witness :
  schema_for_column Examples.id ([] : list LogRecord) =
  ([],
   inr {| type := Some (TypeList ["integer"]);
          properties := None;
          minimum := Some (PInt (-2147483648));
          maximum := Some (PInt 2147483647);
          exclusiveMinimum := None;
          exclusiveMaximum := None;
          multipleOf := None;
          maxLength := None;
          format := None |}).
Proof.
  refine (integer_bounds Examples.id 32 [] eq_refl eq_refl _).
  discriminate.
Defined.

(** X2: the schema of a column carries the format [date-time] exactly when
    the column is a date or a timestamp (a time of day has none), and a
    [maxLength] exactly when it is [character] or [character varying],
    which is the declared length; [text] has none. *)
Theorem format_and_max_length (c : Column) (logs logs' : list LogRecord)
  (r : Schema) :
  schema_for_column c logs = (logs', inr r) ->
  format r =
  (if in_strs (lower (sql_data_type c))
        ["date"; "timestamp without time zone"; "timestamp with time zone"]
   then Some "date-time" else None)
  /\ maxLength r =
     (if in_strs (lower (sql_data_type c)) ["character varying"; "character"]
      then character_maximum_length c else None).
Proof.
  unfold_mapper. generalize (lower (sql_data_type c)) as u. intros u.
  by_type u; cbn.
  all: try (destruct (numeric_precision c); cbn; intros H; inversion H;
            split; reflexivity).
  all: try (destruct (eq_int (character_maximum_length c) 1); cbn;
            intros H; inversion H; split; reflexivity).
  - unfold bind at 1. rewrite capped_run.
    unfold bind at 1. rewrite capped_run.
    intros H; inversion H; split; reflexivity.
Qed.

Lemma format_and_max_length_witness :
  exists r,
    schema_for_column Examples.name ([] : list LogRecord) = ([], inr r) /\
    format r = None /\ maxLength r = Some 20%Z.
Proof.
  eexists. split; [cbv; reflexivity|].
  exact (format_and_max_length Examples.name [] [] _ eq_refl).
Defined.

(** X3: a [bit] column of length one is a boolean; a [bit] column of any
    other length, or of no declared length, is unsupported: its schema has
    no attribute at all.  Nothing is logged or raised. *)
Theorem bit_column (c : Column) (logs : list LogRecord) :
  lower (sql_data_type c) = "bit" ->
  schema_for_column c logs =
  (logs,
   inr (if eq_int (character_maximum_length c) 1
        then set_type Schema_ (nullable_column "boolean" (is_primary_key c))
        else Schema_)).
Proof.
  unfold schema_for_column. intros ->. cbn.
  destruct (eq_int (character_maximum_length c) 1); reflexivity.
Qed.

Lemma bit_column_witness :
  schema_for_column Examples.flags ([] : list LogRecord) = ([], inr Schema_).
Proof. exact (bit_column Examples.flags [] eq_refl). Defined.

(** X4: only a numeric column writes to the logger: on every other column
    the logger is left as it was, whether a schema is returned or the call
    raises. *)
Theorem silent_unless_numeric (c : Column) (logs logs' : list LogRecord)
  (res : exn + Schema) :
  lower (sql_data_type c) <> "numeric" ->
  schema_for_column c logs = (logs', res) ->
  logs' = logs.
Proof.
  unfold_mapper. generalize (lower (sql_data_type c)) as u. intros u.
  by_type u; cbn; intros Hnum.
  all: try (destruct (numeric_precision c); cbn; intros H; inversion H;
            reflexivity).
  all: try (destruct (eq_int (character_maximum_length c) 1); cbn;
            intros H; inversion H; reflexivity).
  - now elim Hnum.
Qed.

Lemma silent_unless_numeric_witness :
  fst (schema_for_column Examples.counter [Spec.warning "earlier"]) =
  [Spec.warning "earlier"].
Proof.
  refine (silent_unless_numeric Examples.counter _ _
            (snd (schema_for_column Examples.counter [Spec.warning "earlier"]))
            _ _).
  - discriminate.
  - reflexivity.
Defined.

(* ================================================================== *)
(** * Discovery: the grouping of the metadata rows *)
(* ================================================================== *)

Section DictMore.

Context {K V : Type} `{Key K}.

Lemma get_not_in_keys (d : dict K V) (k : K) :
  ~ In k (keys d) -> get d k = None.
Proof.
  induction d as [|[k' v'] d IH]; simpl; [reflexivity|].
  intros Hnot. rewrite keqb_neq by (intros ->; apply Hnot; now left).
  apply IH. intros Hin. apply Hnot. now right.
Qed.

Lemma in_keys_get (d : dict K V) (k : K) :
  In k (keys d) -> exists v, get d k = Some v.
Proof.
  induction d as [|[k' v'] d IH]; simpl; [intros []|].
  intros Hin. destruct (keqb k k') eqn:E; [eauto|].
  destruct Hin as [->|Hin]; [now rewrite keqb_refl in E | now apply IH].
Qed.

(** A new key goes last. *)
Lemma set_fresh (d : dict K V) (k : K) (v : V) :
  ~ In k (keys d) -> set d k v = d ++ [(k, v)].
Proof.
  induction d as [|[k' v'] d IH]; simpl; [reflexivity|].
  intros Hnot. rewrite keqb_neq by (intros ->; apply Hnot; now left).
  rewrite IH; [reflexivity|]. intros Hin. apply Hnot. now right.
Qed.

End DictMore.

Lemma lookup_table_add_row_same (table_info : TableInfo) (row : Row) :
  lookup_table (add_row table_info row) (r_schema_name row) (r_table_name row)
  = Some
      (match lookup_table table_info (r_schema_name row) (r_table_name row) with
       | Some t =>
           {| is_view := is_view t; row_count := row_count t;
              columns := set (columns t) (column_name (r_col_info row))
                           (r_col_info row) |}
       | None =>
           {| is_view := r_is_view row; row_count := r_row_count row;
              columns := [(column_name (r_col_info row), r_col_info row)] |}
       end).
Proof.
  unfold lookup_table, add_row, get_default.
  rewrite get_set_same.
  destruct (get table_info (r_schema_name row)) as [tables|] eqn:Es.
  - rewrite Es.
    destruct (get tables (r_table_name row)) as [t|] eqn:Et.
    + rewrite Et. now rewrite get_set_same.
    + rewrite !get_set_same. reflexivity.
  - rewrite get_set_same.
    repeat (cbn; rewrite ?String.eqb_refl). reflexivity.
Qed.

Lemma lookup_table_add_row_other (table_info : TableInfo) (row : Row)
  (s t : string) :
  ~ of_table s t row ->
  lookup_table (add_row table_info row) s t = lookup_table table_info s t.
Proof.
  unfold of_table. intros Hne.
  unfold lookup_table, add_row, get_default.
  destruct (String.eqb_spec (r_schema_name row) s) as [Hs|Hs].
  - subst s. rewrite get_set_same.
    assert (Ht : r_table_name row <> t) by (intros Ht; apply Hne; auto).
    destruct (get table_info (r_schema_name row)) as [tables|] eqn:Es.
    + rewrite Es.
      destruct (get tables (r_table_name row)) as [t0|] eqn:Et.
      * rewrite Et. now rewrite get_set_other.
      * rewrite get_set_same. now rewrite !get_set_other.
    + rewrite get_set_same.
      repeat (cbn; rewrite ?String.eqb_refl).
      destruct (String.eqb_spec t (r_table_name row)); congruence.
  - rewrite get_set_other by exact Hs.
    destruct (get table_info (r_schema_name row));
      [reflexivity | now rewrite get_set_other].
Qed.

Lemma lookup_table_fold_other (rows : list Row) (table_info : TableInfo)
  (s t : string) :
  (forall r, In r rows -> ~ of_table s t r) ->
  lookup_table (fold_left add_row rows table_info) s t
  = lookup_table table_info s t.
Proof.
  revert table_info. induction rows as [|r rows IH]; intros ti Hno; simpl.
  - reflexivity.
  - rewrite IH by (intros r' Hr'; apply Hno; now right).
    apply lookup_table_add_row_other. apply Hno. now left.
Qed.

(** Once a table is there, no later row changes its view flag or its row
    count. *)
Lemma table_attributes_kept (rows : list Row) (table_info : TableInfo)
  (s t : string) (tb : Table) :
  lookup_table table_info s t = Some tb ->
  exists tb',
    lookup_table (fold_left add_row rows table_info) s t = Some tb' /\
    is_view tb' = is_view tb /\ row_count tb' = row_count tb.
Proof.
  revert table_info tb. induction rows as [|r rows IH]; intros ti tb Htb; simpl.
  - eauto.
  - destruct (String.eqb_spec (r_schema_name r) s) as [Hs|Hs];
      [destruct (String.eqb_spec (r_table_name r) t) as [Ht|Ht]|].
    + subst s t.
      pose proof (lookup_table_add_row_same ti r) as Hadd.
      rewrite Htb in Hadd.
      destruct (IH _ _ Hadd) as (tb' & Hl & Hv & Hc). eauto.
    + apply IH. rewrite lookup_table_add_row_other; [exact Htb|].
      unfold of_table. intuition.
    + apply IH. rewrite lookup_table_add_row_other; [exact Htb|].
      unfold of_table. intuition.
Qed.

Lemma lookup_column_add_row_other (table_info : TableInfo) (row : Row)
  (s t c : string) :
  ~ (of_table s t row /\ column_name (r_col_info row) = c) ->
  lookup_column (add_row table_info row) s t c = lookup_column table_info s t c.
Proof.
  intros Hne. unfold lookup_column.
  destruct (String.eqb_spec (r_schema_name row) s) as [Hs|Hs];
    [destruct (String.eqb_spec (r_table_name row) t) as [Ht|Ht]|].
  - subst s t. rewrite lookup_table_add_row_same.
    assert (Hc : column_name (r_col_info row) <> c).
    { intros Hc. apply Hne. unfold of_table. auto. }
    destruct (lookup_table table_info _ _) as [tb|]; simpl.
    + now rewrite get_set_other.
    + cbn. destruct (String.eqb_spec c (column_name (r_col_info row)));
        congruence.
  - rewrite lookup_table_add_row_other; [reflexivity|].
    unfold of_table. intuition.
  - rewrite lookup_table_add_row_other; [reflexivity|].
    unfold of_table. intuition.
Qed.

Lemma lookup_column_add_row_same (table_info : TableInfo) (row : Row) :
  lookup_column (add_row table_info row) (r_schema_name row) (r_table_name row)
    (column_name (r_col_info row))
  = Some (r_col_info row).
Proof.
  unfold lookup_column. rewrite lookup_table_add_row_same.
  destruct (lookup_table table_info _ _) as [tb|]; simpl.
  - apply get_set_same.
  - cbn. now rewrite String.eqb_refl.
Qed.

(** The column names of a table of the grouping are distinct. *)
Lemma add_row_columns_NoDup (table_info : TableInfo) (row : Row) :
  (forall s t tb, lookup_table table_info s t = Some tb ->
                  NoDup (keys (columns tb))) ->
  forall s t tb, lookup_table (add_row table_info row) s t = Some tb ->
                 NoDup (keys (columns tb)).
Proof.
  intros Hinv s t tb.
  destruct (String.eqb_spec (r_schema_name row) s) as [Hs|Hs];
    [destruct (String.eqb_spec (r_table_name row) t) as [Ht|Ht]|].
  - subst s t. rewrite lookup_table_add_row_same.
    destruct (lookup_table table_info _ _) as [tb0|] eqn:E;
      intros Heq; inversion Heq; subst tb; simpl.
    + apply NoDup_keys_set. exact (Hinv _ _ _ E).
    + constructor; [intros [] | constructor].
  - rewrite lookup_table_add_row_other by (unfold of_table; intuition).
    apply Hinv.
  - rewrite lookup_table_add_row_other by (unfold of_table; intuition).
    apply Hinv.
Qed.

Lemma produce_table_info_columns_NoDup (rows : list Row) (s t : string)
  (tb : Table) :
  lookup_table (produce_table_info rows) s t = Some tb ->
  NoDup (keys (columns tb)).
Proof.
  unfold produce_table_info.
  assert (Hgen : forall ti,
    (forall s t tb, lookup_table ti s t = Some tb -> NoDup (keys (columns tb))) ->
    forall s t tb, lookup_table (fold_left add_row rows ti) s t = Some tb ->
                   NoDup (keys (columns tb))).
  { induction rows as [|r rows IH]; intros ti Hinv; simpl; [exact Hinv|].
    apply IH. now apply add_row_columns_NoDup. }
  apply Hgen. intros s' t' tb'. unfold lookup_table. simpl. discriminate.
Qed.

(** Every column of the grouping is filed under its own name. *)
Lemma produce_table_info_column_names (rows : list Row) (s t c : string)
  (col : Column) :
  lookup_column (produce_table_info rows) s t c = Some col ->
  column_name col = c.
Proof.
  unfold produce_table_info.
  assert (Hgen : forall ti,
    (forall s t c col, lookup_column ti s t c = Some col -> column_name col = c) ->
    forall s t c col, lookup_column (fold_left add_row rows ti) s t c = Some col ->
                      column_name col = c).
  { induction rows as [|r rows IH]; intros ti Hinv; simpl; [exact Hinv|].
    apply IH. clear IH. intros s' t' c' col'.
    destruct (String.eqb_spec (r_schema_name r) s') as [Hs|Hs];
      [destruct (String.eqb_spec (r_table_name r) t') as [Ht|Ht];
       [destruct (String.eqb_spec (column_name (r_col_info r)) c') as [Hc|Hc]|]|].
    - subst s' t' c'. rewrite lookup_column_add_row_same.
      intros Heq. now inversion Heq.
    - rewrite lookup_column_add_row_other by tauto. apply Hinv.
    - rewrite lookup_column_add_row_other by (unfold of_table; tauto).
      apply Hinv.
    - rewrite lookup_column_add_row_other by (unfold of_table; tauto).
      apply Hinv. }
  apply Hgen. intros s' t' c' col'. unfold lookup_column, lookup_table.
  simpl. discriminate.
Qed.

(** X5: the grouping of the metadata rows has exactly the tables the rows
    name, each of them once, whatever the order and the number of the rows
    of a table. *)
Theorem tables_of_the_rows (rows : list Row) :
  NoDup (tables_of (produce_table_info rows)) /\
  forall s t,
    In (s, t) (tables_of (produce_table_info rows)) <->
    exists row, In row rows /\ of_table s t row.
Proof.
  split.
  - apply tables_of_NoDup, produce_table_info_grouped.
  - intros s t. rewrite produce_table_info_tables. unfold of_table.
    split; intros (row & Hin & Hs & Ht); exists row; auto.
Qed.

(** X6: a table of the grouping has the view flag and the row count of
    the first row that names it; the rows after it do not change them. *)
Theorem table_attributes_of_first_row (rows1 rows2 : list Row) (row : Row) :
  (forall r, In r rows1 ->
             ~ of_table (r_schema_name row) (r_table_name row) r) ->
  exists tb,
    lookup_table (produce_table_info (rows1 ++ row :: rows2))
      (r_schema_name row) (r_table_name row) = Some tb /\
    is_view tb = r_is_view row /\ row_count tb = r_row_count row.
Proof.
  intros Hfirst. unfold produce_table_info.
  rewrite fold_left_app. simpl.
  pose proof (lookup_table_add_row_same (fold_left add_row rows1 []) row) as Hadd.
  rewrite (lookup_table_fold_other rows1 [] _ _ Hfirst) in Hadd.
  change (lookup_table [] (r_schema_name row) (r_table_name row))
    with (@None Table) in Hadd.
  destruct (table_attributes_kept rows2 _ _ _ _ Hadd) as (tb & Hl & Hv & Hc).
  exists tb. auto.
Qed.

(** X7: a column of the grouping is described by the last row that names
    it: a later row of the same table and column replaces the earlier
    descriptor. *)
Theorem column_of_last_row (rows1 rows2 : list Row) (row : Row) :
  (forall r, In r rows2 ->
     ~ (of_table (r_schema_name row) (r_table_name row) r /\
        column_name (r_col_info r) = column_name (r_col_info row))) ->
  lookup_column (produce_table_info (rows1 ++ row :: rows2))
    (r_schema_name row) (r_table_name row) (column_name (r_col_info row))
  = Some (r_col_info row).
Proof.
  intros Hlast. unfold produce_table_info.
  rewrite fold_left_app. simpl.
  generalize (lookup_column_add_row_same (fold_left add_row rows1 []) row).
  generalize (add_row (fold_left add_row rows1 []) row) as ti.
  induction rows2 as [|r rows2 IH]; intros ti Hti; simpl; [exact Hti|].
  apply IH.
  - intros r' Hr'. apply Hlast. now right.
  - rewrite lookup_column_add_row_other; [exact Hti|]. apply Hlast. now left.
Qed.

Lemma table_attributes_of_first_row_witness :
  exists tb,
    lookup_table (produce_table_info (rows Examples.indexed)) "public" "orders"
      = Some tb /\
    is_view tb = false /\ row_count tb = 10%Z.
Proof.
  refine (table_attributes_of_first_row
            [Examples.a_row "public" "customers" Examples.name]
            [Examples.a_later_row "public" "orders" Examples.id_in_other_index;
             Examples.a_later_row "public" "orders" Examples.flags]
            (Examples.a_row "public" "orders" Examples.id) _).
  intros r [<-|[]] [_ Ht]. discriminate.
Defined.

Lemma column_of_last_row_witness :
  lookup_column (produce_table_info (rows Examples.indexed))
    "public" "orders" "id"
  = Some Examples.id_in_other_index.
Proof.
  refine (column_of_last_row
            [Examples.a_row "public" "customers" Examples.name;
             Examples.a_row "public" "orders" Examples.id]
            [Examples.a_later_row "public" "orders" Examples.flags]
            (Examples.a_later_row "public" "orders" Examples.id_in_other_index)
            _).
  intros r [<-|[]] [_ Hc]. discriminate.
Defined.

(* ================================================================== *)
(** * Discovery: the metadata of an entry *)
(* ================================================================== *)

(** ** Compiled metadata *)

Lemma md_get_write_same (m : MdMap) (b : Breadcrumb) (k : string) (v : pyval) :
  md_get (write m b k v) b k = v.
Proof.
  unfold md_get, write, get_default.
  destruct (get m b) as [d|]; rewrite get_set_same.
  - now rewrite get_set_same.
  - cbn. now rewrite String.eqb_refl.
Qed.

Lemma md_get_write_other (m : MdMap) (b b' : Breadcrumb) (k k' : string)
  (v : pyval) :
  b <> b' \/ k <> k' ->
  md_get (write m b k v) b' k' = md_get m b' k'.
Proof.
  intros Hne. unfold md_get, write, get_default.
  destruct (keqb b b') eqn:Eb.
  - apply keqb_eq in Eb. subst b'.
    assert (Hk : k <> k') by (destruct Hne; congruence).
    destruct (get m b) as [d|]; rewrite get_set_same.
    + now rewrite get_set_other.
    + cbn. destruct (String.eqb_spec k' k); congruence.
  - assert (Hb : b <> b').
    { intros ->. now rewrite keqb_refl in Eb. }
    destruct (get m b) as [d|]; now rewrite get_set_other.
Qed.

Lemma NoDup_keys_write (m : MdMap) (b : Breadcrumb) (k : string) (v : pyval) :
  NoDup (keys m) -> NoDup (keys (write m b k v)).
Proof.
  unfold write. destruct (get m b); apply NoDup_keys_set.
Qed.

(** [to_map] undoes [to_list]. *)
Lemma to_map_to_list (m : MdMap) : NoDup (keys m) -> to_map (to_list m) = m.
Proof.
  unfold to_map, to_list, items.
  assert (Hgen : forall (l acc : MdMap),
    NoDup (keys (acc ++ l)) ->
    fold_left (fun m md => set m (fst md) (snd md)) l acc = acc ++ l).
  { induction l as [|[b d] l IH]; intros acc Hnd; simpl.
    - now rewrite app_nil_r.
    - rewrite set_fresh.
      + rewrite IH; rewrite <- app_assoc; [reflexivity | exact Hnd].
      + unfold keys in *. rewrite map_app in Hnd. simpl in Hnd.
        apply NoDup_remove_2 in Hnd. intros Hin. apply Hnd.
        apply in_or_app. now left. }
  intros Hnd. now rewrite Hgen.
Qed.

(** ** The loops of [discover_columns] *)

Section TableEntry.

#[local] Abbreviation Logs := (list LogRecord).

(** The dictionary comprehension of the column schemas. *)
Lemma column_schemas_run (l : list (string * Column))
  (d0 d : dict string Schema) (logs logs' : Logs) :
  for_each l
    (fun ci d => s <- schema_for_column (snd ci) ;; ret (set d (fst ci) s))
    d0 logs = (logs', inr d) ->
  NoDup (keys d0 ++ map fst l) ->
  keys d = keys d0 ++ map fst l /\
  (forall q, ~ In q (map fst l) -> get d q = get d0 q) /\
  (forall c col, In (c, col) l ->
     exists sch (lg lg' : Logs),
       get d c = Some sch /\ schema_for_column col lg = (lg', inr sch)).
Proof.
  revert d0 logs. induction l as [|[c col] l IH]; intros d0 logs Hrun Hnd.
  - simpl in Hrun. inversion Hrun; subst. simpl. rewrite app_nil_r.
    repeat split; auto. intros c col [].
  - simpl in Hrun. apply bind_inr in Hrun as (lg1 & d1 & Hbody & Hrest).
    apply bind_inr in Hbody as (lg2 & sch & Hsch & Hret).
    inversion Hret; subst lg2 d1. clear Hret. simpl in Hrest.
    assert (Hfresh : ~ In c (keys d0)).
    { simpl in Hnd. apply NoDup_remove_2 in Hnd. intros Hin. apply Hnd.
      apply in_or_app. now left. }
    assert (Hc : ~ In c (map fst l)).
    { simpl in Hnd. apply NoDup_remove_2 in Hnd. intros Hin. apply Hnd.
      apply in_or_app. now right. }
    assert (Hk1 : keys (set d0 c sch) = keys d0 ++ [c]).
    { rewrite set_fresh by exact Hfresh. unfold keys. now rewrite map_app. }
    destruct (IH _ _ Hrest) as (Hkeys & Hframe & Hcols).
    { rewrite Hk1, <- app_assoc. exact Hnd. }
    split; [|split].
    + rewrite Hkeys, Hk1, <- app_assoc. reflexivity.
    + intros q Hq. simpl in Hq. rewrite Hframe by tauto.
      apply get_set_other. tauto.
    + intros c' col' [Heq|Hin].
      * inversion Heq; subst c' col'. exists sch, logs, lg1.
        split; [|exact Hsch]. rewrite Hframe by exact Hc.
        apply get_set_same.
      * now apply Hcols.
Qed.

Lemma column_metadata_run (columns : dict string Column)
  (column_schemas : dict string Schema) (c : string) (mdata m' : MdMap)
  (logs logs' : Logs) :
  column_metadata columns column_schemas c mdata logs = (logs', inr m') ->
  (forall col, get columns c = Some col -> column_name col = c) ->
  exists col sch,
    get columns c = Some col /\ get column_schemas c = Some sch /\
    logs' = logs /\ m' = column_writes mdata c col sch.
Proof.
  unfold column_metadata. intros Hrun Hname.
  apply bind_inr in Hrun as (lg1 & col & Hc & Hrun).
  apply item_inr in Hc as [Hcol ->].
  apply bind_inr in Hrun as (lg1 & m1 & Hw & Hrun).
  apply bind_inr in Hrun as (lg2 & sch & Hs & Hrun).
  apply item_inr in Hs as [Hsch ->].
  exists col, sch. split; [exact Hcol|]. split; [exact Hsch|].
  assert (Hm1 : lg1 = logs /\
                m1 = write mdata ["properties"; c] "sql-datatype"
                       (VStr (sql_datatype_text col))).
  { revert Hw. unfold write_sql_data_type_md, sql_datatype_text.
    rewrite (Hname _ Hcol).
    destruct (sql_data_type col =? "bit");
      destruct (character_maximum_length col) as [n|]; simpl;
      try rewrite Z.gtb_ltb; try destruct (1 <? n)%Z;
      unfold ret, raise; intros Hw; inversion Hw; auto. }
  destruct Hm1 as [-> ->]. unfold column_writes, column_breadcrumb.
  destruct (type sch); [destruct (truthy_bool (is_primary_key col))|];
    inversion Hrun; auto.
Qed.

Lemma column_breadcrumb_inj (c c' : string) :
  column_breadcrumb c = column_breadcrumb c' -> c = c'.
Proof. unfold column_breadcrumb. congruence. Qed.

Lemma column_writes_other (mdata : MdMap) (c : string) (col : Column)
  (sch : Schema) (b : Breadcrumb) (k : string) :
  b <> column_breadcrumb c ->
  md_get (column_writes mdata c col sch) b k = md_get mdata b k.
Proof.
  intros Hb. unfold column_writes.
  now rewrite !md_get_write_other by (left; congruence).
Qed.

Lemma column_writes_other_key (mdata : MdMap) (c : string) (col : Column)
  (sch : Schema) (k : string) :
  ~ In k ["sql-datatype"; "inclusion"; "selected-by-default"] ->
  md_get (column_writes mdata c col sch) (column_breadcrumb c) k
  = md_get mdata (column_breadcrumb c) k.
Proof.
  intros Hk. unfold column_writes. simpl in Hk.
  now rewrite !md_get_write_other by (right; intuition).
Qed.

Lemma column_writes_values (mdata : MdMap) (c : string) (col : Column)
  (sch : Schema) :
  let m := column_writes mdata c col sch in
  md_get m (column_breadcrumb c) "sql-datatype" = VStr (sql_datatype_text col) /\
  md_get m (column_breadcrumb c) "inclusion" =
    VStr (match type sch with
          | None => "unsupported"
          | Some _ =>
              if truthy_bool (is_primary_key col)
              then "automatic" else "available"
          end) /\
  md_get m (column_breadcrumb c) "selected-by-default" =
    VBool (match type sch with None => false | Some _ => true end).
Proof.
  unfold column_writes. repeat split.
  - rewrite !md_get_write_other by (right; discriminate).
    apply md_get_write_same.
  - rewrite md_get_write_other by (right; discriminate).
    apply md_get_write_same.
  - apply md_get_write_same.
Qed.

(** The metadata loop over the column names. *)
Lemma metadata_loop_run (columns : dict string Column)
  (column_schemas : dict string Schema) (names : list string)
  (mdata m : MdMap) (logs logs' : Logs) :
  for_each names (column_metadata columns column_schemas) mdata logs
  = (logs', inr m) ->
  (forall c col, get columns c = Some col -> column_name col = c) ->
  logs' = logs /\
  (NoDup (keys mdata) -> NoDup (keys m)) /\
  (forall b k, (forall c, In c names -> b <> column_breadcrumb c) ->
               md_get m b k = md_get mdata b k) /\
  (forall c k, ~ In k ["sql-datatype"; "inclusion"; "selected-by-default"] ->
               md_get m (column_breadcrumb c) k
               = md_get mdata (column_breadcrumb c) k) /\
  (NoDup names ->
   forall c, In c names ->
     exists col sch,
       get columns c = Some col /\ get column_schemas c = Some sch /\
       forall k, In k ["sql-datatype"; "inclusion"; "selected-by-default"] ->
         md_get m (column_breadcrumb c) k
         = md_get (column_writes mdata c col sch) (column_breadcrumb c) k).
Proof.
  intros Hrun Hname. revert mdata logs Hrun.
  induction names as [|c names IH]; intros mdata logs Hrun.
  - simpl in Hrun. inversion Hrun; subst.
    repeat split; auto. intros _ c [].
  - simpl in Hrun. apply bind_inr in Hrun as (lg1 & m1 & Hbody & Hrest).
    destruct (column_metadata_run _ _ _ _ _ _ _ Hbody (fun col => Hname c col))
      as (col & sch & Hcol & Hsch & -> & ->).
    destruct (IH _ _ Hrest) as (Hlogs & Hnd & Hframe & Hkey & Hvals).
    split; [exact Hlogs|]. split; [|split; [|split]].
    + intros H0. apply Hnd. unfold column_writes.
      now repeat apply NoDup_keys_write.
    + intros b k Hb. rewrite Hframe by (intros c' Hc'; apply Hb; now right).
      apply column_writes_other. apply Hb. now left.
    + intros c' k Hk. rewrite Hkey by exact Hk.
      destruct (String.eqb_spec c' c) as [->|Hne].
      * now apply column_writes_other_key.
      * apply column_writes_other. intros Heq.
        apply column_breadcrumb_inj in Heq. contradiction.
    + intros Hnames c' [<-|Hin].
      * exists col, sch. split; [exact Hcol|]. split; [exact Hsch|].
        intros k _. apply Hframe. intros c' Hc' Heq.
        apply column_breadcrumb_inj in Heq. subst c'.
        inversion Hnames; contradiction.
      * inversion Hnames as [|? ? Hnot Hnames']; subst.
        destruct (Hvals Hnames' c' Hin) as (col' & sch' & Hcol' & Hsch' & Hv).
        exists col', sch'. split; [exact Hcol'|]. split; [exact Hsch'|].
        intros k Hk. rewrite (Hv k Hk). unfold column_writes at 2 3.
        assert (Hne : column_breadcrumb c' <> column_breadcrumb c).
        { intros Heq. apply column_breadcrumb_inj in Heq. subst c'.
          contradiction. }
        unfold column_writes.
        destruct Hk as [<-|[<-|[<-|[]]]].
        -- rewrite !(md_get_write_other _ _ _ "selected-by-default")
             by (right; discriminate).
           rewrite !(md_get_write_other _ _ _ "inclusion")
             by (right; discriminate).
           rewrite !md_get_write_same. reflexivity.
        -- rewrite !(md_get_write_other _ _ _ "selected-by-default")
             by (right; discriminate).
           rewrite !md_get_write_same. reflexivity.
        -- rewrite !md_get_write_same. reflexivity.
Qed.

End TableEntry.

(** ** The native type in the metadata *)

(** X13: [write_sql_data_type_md] records the native type of a column
    under [sql-datatype] at the breadcrumb of the column and changes no
    other metadata value: [bit(n)] for the type [bit] with a length above
    one, the type as the query spells it otherwise.  The type is compared
    as it is spelled, with no folding of case.  For the type [bit] with a
    null length the comparison of the length raises. *)
Theorem sql_datatype_written {S : Type} (mdata : MdMap) (col_info : Column)
  (s : S) :
  let bc := column_breadcrumb (column_name col_info) in
  (sql_data_type col_info = "bit" /\ character_maximum_length col_info = None ->
   exists e, write_sql_data_type_md mdata col_info s = (s, inl e))
  /\
  (~ (sql_data_type col_info = "bit" /\
      character_maximum_length col_info = None) ->
   exists m,
     write_sql_data_type_md mdata col_info s = (s, inr m) /\
     md_get m bc "sql-datatype" = VStr (sql_datatype_text col_info) /\
     forall b k, b <> bc \/ k <> "sql-datatype" ->
                 md_get m b k = md_get mdata b k).
Proof.
  cbv zeta. unfold write_sql_data_type_md, sql_datatype_text, column_breadcrumb.
  split.
  - intros [-> ->]. simpl. eexists. reflexivity.
  - intros Hok.
    destruct (String.eqb_spec (sql_data_type col_info) "bit") as [Hbit|Hbit];
      destruct (character_maximum_length col_info) as [n|]; simpl;
      try rewrite Z.gtb_ltb; try destruct (1 <? n)%Z;
      try (exfalso; apply Hok; now split);
      eexists; (split; [reflexivity|]);
      (split; [apply md_get_write_same|]);
      intros b k Hbk; apply md_get_write_other;
      (destruct Hbk; [left|right]); congruence.
Qed.

(** ** One entry *)

Section Discovered.

#[local] Abbreviation Logs := (list LogRecord).

Lemma get_In {K V} `{Key K} (d : dict K V) (k : K) (v : V) :
  get d k = Some v -> In (k, v) d.
Proof.
  induction d as [|[k' v'] d IH]; simpl; [discriminate|].
  destruct (keqb k k') eqn:E.
  - apply keqb_eq in E. subst k'. intros Heq. inversion Heq. now left.
  - intros Hg. right. now apply IH.
Qed.

(** What a successful pass of the loop body of [discover_columns] leaves
    in the entry of the table [s.t] of the database [db]. *)
Lemma discover_table_run (db : string) (rows : list Row) (s t : string)
  (logs logs' : Logs) (entry : CatalogEntry) :
  discover_table db (produce_table_info rows) s t logs = (logs', inr entry) ->
  exists tb props,
    lookup_table (produce_table_info rows) s t = Some tb /\
    table entry = t /\ stream entry = t /\
    schema entry =
      mkSchema (Some (TypeName "object")) (Some props)
        None None None None None None None /\
    keys props = keys (columns tb) /\
    (forall c col, get (columns tb) c = Some col ->
       exists sch (lg lg' : Logs),
         get props c = Some sch /\ schema_for_column col lg = (lg', inr sch)) /\
    (forall k,
       md_get (to_map (metadata entry)) [] k =
       md_get
         (write
            (write
               (write
                  (write
                     (write [] [] "table-key-properties"
                        (VList (map VStr (primary_keys (columns tb)))))
                     [] "schema-name" (VStr s))
                  [] "database-name" (VStr db))
               [] "row-count" (VInt (row_count tb)))
            [] "is-view" (VBool (is_view tb)))
         [] k) /\
    (forall c k, ~ In k ["sql-datatype"; "inclusion"; "selected-by-default"] ->
       md_get (to_map (metadata entry)) (column_breadcrumb c) k = VNone) /\
    (forall c col, get (columns tb) c = Some col ->
       md_get (to_map (metadata entry)) (column_breadcrumb c) "sql-datatype"
         = VStr (sql_datatype_text col) /\
       md_get (to_map (metadata entry)) (column_breadcrumb c) "inclusion"
         = VStr (inclusion_of col) /\
       md_get (to_map (metadata entry)) (column_breadcrumb c) "selected-by-default"
         = VBool (match canonical_type col with Some _ => true | None => false end)).
Proof.
  unfold discover_table. intros Hrun.
  apply bind_inr in Hrun as (lg1 & tables & Hs & Hrun).
  apply item_inr in Hs as [Htables ->].
  apply bind_inr in Hrun as (lg1 & tb & Ht & Hrun).
  apply item_inr in Ht as [Htb ->].
  apply bind_inr in Hrun as (lg1 & props & Hprops & Hrun).
  apply bind_inr in Hrun as (lg2 & mdata & Hmd & Hret).
  unfold ret in Hret. inversion Hret; subst lg2 entry. clear Hret. simpl.
  assert (Hlk : lookup_table (produce_table_info rows) s t = Some tb).
  { unfold lookup_table. now rewrite Htables. }
  pose proof (produce_table_info_columns_NoDup _ _ _ _ Hlk) as Hnd.
  assert (Hname : forall c col, get (columns tb) c = Some col ->
                                column_name col = c).
  { intros c col Hc.
    apply (produce_table_info_column_names rows s t c col).
    unfold lookup_column. now rewrite Hlk. }
  destruct (column_schemas_run _ _ _ _ _ Hprops) as (Hkeys & _ & Hcols).
  { exact Hnd. }
  simpl in Hkeys. change (map fst (items (columns tb))) with (keys (columns tb))
    in Hkeys.
  destruct (metadata_loop_run _ _ _ _ _ _ _ Hmd Hname)
    as (_ & Hmnd & Hframe & Hkey & Hvals).
  rewrite to_map_to_list.
  2:{ apply Hmnd. repeat apply NoDup_keys_write. constructor. }
  exists tb, props.
  split; [exact Hlk|]. split; [reflexivity|]. split; [reflexivity|].
  split; [reflexivity|]. split; [exact Hkeys|].
  split; [|split; [|split]].
  - intros c col Hc. apply (Hcols c col). now apply get_In.
  - intros k. apply Hframe. intros c _. discriminate.
  - intros c k Hk. rewrite Hkey by exact Hk.
    now rewrite !md_get_write_other by (left; discriminate).
  - intros c col Hc.
    assert (Hin : In c (keys props)).
    { rewrite Hkeys. now apply (get_in_keys _ _ col). }
    rewrite Hkeys in Hvals.
    destruct (Hvals Hnd c) as (col' & sch & Hcol' & Hsch & Hv).
    { now rewrite <- Hkeys. }
    rewrite Hc in Hcol'. inversion Hcol'; subst col'. clear Hcol'.
    destruct (Hcols c col (get_In _ _ _ Hc)) as (sch' & lg & lg' & Hsch' & Hsfc).
    rewrite Hsch in Hsch'. inversion Hsch'; subst sch'. clear Hsch'.
    pose proof (schema_for_column_type _ _ _ _ Hsfc) as Hty.
    pose proof (column_writes_values
                  (write
                     (write
                        (write
                           (write
                              (write [] [] "table-key-properties"
                                 (VList (map VStr
                                    (map fst
                                       (filter
                                          (fun ci => truthy_bool (is_primary_key (snd ci)))
                                          (items (columns tb)))))))
                              [] "schema-name" (VStr s))
                           [] "database-name" (VStr db))
                        [] "row-count" (VInt (row_count tb)))
                     [] "is-view" (VBool (is_view tb)))
                  c col sch) as (V1 & V2 & V3).
    rewrite !Hv by (simpl; auto). rewrite V1, V2, V3.
    unfold inclusion_of. rewrite Hty.
    destruct (canonical_type col); auto.
Qed.

End Discovered.

(** ** The entries of a database and of a cluster *)

Section EntriesOf.

Context {S : Type} `{Logging S}.
Variable database_name : string.
Variable table_info : TableInfo.
Variable P : CatalogEntry -> Prop.
Hypothesis P_entry :
  forall schema_name table_name (s s' : S) entry,
    discover_table database_name table_info schema_name table_name s
    = (s', inr entry) ->
    P entry.

Lemma discover_tables_Forall (schema_name : string) (table_names : list string)
  (entries : list CatalogEntry) (s s' : S) (result : list CatalogEntry) :
  for_each table_names
    (fun table_name entries =>
       entry <- discover_table database_name table_info
                  schema_name table_name ;;
       ret (entries ++ [entry]))
    entries s = (s', inr result) ->
  Forall P entries -> Forall P result.
Proof.
  revert entries s. induction table_names as [|t ts IH]; intros entries s; simpl.
  - unfold ret. intros Heq. now inversion Heq.
  - intros Hrun Hacc.
    apply bind_inr in Hrun as (s1 & entries1 & Hbody & Hrun).
    apply bind_inr in Hbody as (s2 & entry & Hentry & Hret).
    unfold ret in Hret. inversion Hret; subst.
    apply (IH _ _ Hrun). apply Forall_app. split; [exact Hacc|].
    constructor; [|constructor]. exact (P_entry _ _ _ _ _ Hentry).
Qed.

Lemma discover_columns_Forall (s s' : S) (result : list CatalogEntry) :
  discover_columns database_name table_info s = (s', inr result) ->
  Forall P result.
Proof.
  unfold discover_columns.
  assert (Hgen : forall schema_names entries s s' result,
    for_each schema_names
      (fun schema_name entries =>
         tables <- item table_info schema_name ;;
         for_each (keys tables)
           (fun table_name entries =>
              entry <- discover_table database_name table_info
                         schema_name table_name ;;
              ret (entries ++ [entry]))
           entries)
      entries s = (s', inr result) ->
    Forall P entries -> Forall P result).
  { induction schema_names as [|sn sns IH]; intros entries s0 s0' res; simpl.
    - unfold ret. intros Heq. now inversion Heq.
    - intros Hrun Hacc.
      apply bind_inr in Hrun as (s1 & entries1 & Hbody & Hrun).
      apply bind_inr in Hbody as (s2 & tables & Hitem & Hinner).
      apply (IH _ _ _ _ Hrun).
      exact (discover_tables_Forall _ _ _ _ _ _ Hinner Hacc). }
  intros Hrun. apply (Hgen _ _ _ _ _ Hrun). constructor.
Qed.

End EntriesOf.

Lemma do_discovery_Forall (P : CatalogEntry -> Prop) (cluster : list Database)
  (logs logs' : list LogRecord) (catalog : Catalog) :
  (forall db rows s t (lg lg' : list LogRecord) entry,
     discover_table db (produce_table_info rows) s t lg = (lg', inr entry) ->
     P entry) ->
  do_discovery cluster logs = (logs', inr catalog) ->
  Forall P (streams catalog).
Proof.
  intros HP. unfold do_discovery. intros Hrun.
  apply bind_inr in Hrun as (l1 & [] & _ & Hrun).
  apply bind_inr in Hrun as (l2 & all_streams & Hloop & Hret).
  unfold ret in Hret. inversion Hret; subst. cbn [streams]. clear Hret.
  assert (Hgen : forall dbs acc (l l' : list LogRecord) res,
    for_each dbs
      (fun db all_streams =>
         log INFO "Discovering db %s" [VStr (datname db)] ;;
         db_streams <- discover_db db ;;
         ret (all_streams ++ db_streams))
      acc l = (l', inr res) ->
    Forall P acc -> Forall P res).
  { induction dbs as [|db dbs IH]; intros acc l l' res; simpl.
    - unfold ret. intros Heq. now inversion Heq.
    - intros Hrun Hacc.
      apply bind_inr in Hrun as (la & acc1 & Hbody & Hrun).
      apply bind_inr in Hbody as (lb & [] & _ & Hbody).
      apply bind_inr in Hbody as (lc & db_streams & Hdb & Hret).
      unfold ret in Hret. inversion Hret; subst.
      apply (IH _ _ _ _ Hrun). apply Forall_app. split; [exact Hacc|].
      unfold discover_db in Hdb.
      apply (discover_columns_Forall (datname db)
               (produce_table_info (rows db)) P) in Hdb; [exact Hdb|].
      intros s t lg lg' e. apply HP. }
  apply (Hgen _ _ _ _ _ Hloop). constructor.
Qed.

Lemma discover_db_entry (P : CatalogEntry -> Prop) (db : Database)
  (logs logs' : list LogRecord) (entries : list CatalogEntry)
  (entry : CatalogEntry) :
  (forall s t (lg lg' : list LogRecord) e,
     discover_table (datname db) (produce_table_info (rows db)) s t lg
     = (lg', inr e) -> P e) ->
  discover_db db logs = (logs', inr entries) ->
  In entry entries ->
  P entry.
Proof.
  intros HP Hrun Hin. unfold discover_db in Hrun.
  apply (discover_columns_Forall _ _ P HP) in Hrun.
  rewrite Forall_forall in Hrun. now apply Hrun.
Qed.

(** The entry of a table is the one the loop body made for it. *)
Lemma discover_db_table (db : Database) (logs logs' : list LogRecord)
  (entries : list CatalogEntry) (entry : CatalogEntry) (s t : string) :
  discover_db db logs = (logs', inr entries) ->
  In entry entries ->
  md_get (to_map (metadata entry)) [] "schema-name" = VStr s ->
  table entry = t ->
  exists lg lg' : list LogRecord,
    discover_table (datname db) (produce_table_info (rows db)) s t lg
    = (lg', inr entry).
Proof.
  intros Hrun Hin. revert s t. pattern entry.
  refine (discover_db_entry _ db logs logs' entries entry _ Hrun Hin).
  intros s' t' lg lg' e He s t Hs Ht.
  destruct (discover_table_run _ _ _ _ _ _ _ He)
    as (tb & props & _ & Ht' & _ & _ & _ & _ & Hmd & _).
  rewrite Hmd in Hs.
  rewrite !md_get_write_other in Hs by (right; discriminate).
  rewrite md_get_write_same in Hs.
  assert (Hs' : s' = s) by congruence.
  assert (Ht'' : t' = t) by congruence.
  rewrite Hs', Ht'' in He. now exists lg, lg'.
Qed.

(** ** What discovery writes *)

(** X8: the stream-level metadata of a discovered entry: the database and
    the schema of its table, the row count and the view flag the grouping
    kept for it, and the names of its primary-key columns in the order of
    the columns; nothing else, so neither [selected] nor a replication
    method. *)
Theorem discovered_stream_metadata (db : Database)
  (logs logs' : list LogRecord) (entries : list CatalogEntry)
  (entry : CatalogEntry) :
  discover_db db logs = (logs', inr entries) ->
  In entry entries ->
  exists s t tb,
    lookup_table (produce_table_info (rows db)) s t = Some tb /\
    tap_stream_id entry = stream_id (datname db) s t /\
    table entry = t /\ stream entry = t /\
    let md := to_map (metadata entry) in
    md_get md [] "database-name" = VStr (datname db) /\
    md_get md [] "schema-name" = VStr s /\
    md_get md [] "row-count" = VInt (row_count tb) /\
    md_get md [] "is-view" = VBool (is_view tb) /\
    md_get md [] "table-key-properties"
      = VList (map VStr (primary_keys (columns tb))) /\
    forall k,
      ~ In k ["database-name"; "schema-name"; "row-count"; "is-view";
              "table-key-properties"] ->
      md_get md [] k = VNone.
Proof.
  intros Hrun Hin. pattern entry.
  refine (discover_db_entry _ db logs logs' entries entry _ Hrun Hin).
  intros s t lg lg' e He.
  pose proof (discover_table_id _ _ _ _ _ _ _ He) as Hid.
  unfold id_and_table in Hid. injection Hid as Hid _.
  destruct (discover_table_run _ _ _ _ _ _ _ He)
    as (tb & props & Hlk & Ht & Hs & _ & _ & _ & Hmd & _).
  exists s, t, tb.
  split; [exact Hlk|]. split; [exact Hid|]. split; [exact Ht|].
  split; [exact Hs|]. cbv zeta. rewrite !Hmd.
  repeat split.
  intros k Hk. rewrite Hmd. simpl in Hk.
  now rewrite !md_get_write_other by (right; intuition).
Qed.

Lemma discovered_stream_metadata_witness :
  In Examples.orders_entry (Examples.entries_of Examples.indexed) /\
  md_get (to_map (metadata Examples.orders_entry)) [] "database-name"
    = VStr "sales" /\
  md_get (to_map (metadata Examples.orders_entry)) [] "selected" = VNone.
Proof.
  assert (Hin : In Examples.orders_entry (Examples.entries_of Examples.indexed)).
  { vm_compute. right. left. reflexivity. }
  split; [exact Hin|].
  destruct (discovered_stream_metadata Examples.indexed []
              (fst (discover_db Examples.indexed []))
              (Examples.entries_of Examples.indexed) Examples.orders_entry)
    as (s & t & tb & _ & _ & _ & _ & Hdb & _ & _ & _ & _ & Hnone).
  - vm_compute. reflexivity.
  - exact Hin.
  - split; [exact Hdb|]. apply Hnone. simpl. intuition discriminate.
Defined.

(** X9: the metadata of a column of a discovered entry: its native type,
    [bit(n)] for a bit string wider than one; the inclusion [unsupported]
    for a type outside the mapping table, [automatic] for a primary-key
    column and [available] for any other; [selected-by-default] for every
    supported column; and no [selected] key. *)
Theorem discovered_column_metadata (db : Database)
  (logs logs' : list LogRecord) (entries : list CatalogEntry)
  (entry : CatalogEntry) (s t c : string) (col : Column) :
  discover_db db logs = (logs', inr entries) ->
  In entry entries ->
  md_get (to_map (metadata entry)) [] "schema-name" = VStr s ->
  table entry = t ->
  lookup_column (produce_table_info (rows db)) s t c = Some col ->
  let md := to_map (metadata entry) in
  md_get md (column_breadcrumb c) "sql-datatype" = VStr (sql_datatype_text col) /\
  md_get md (column_breadcrumb c) "inclusion" = VStr (inclusion_of col) /\
  md_get md (column_breadcrumb c) "selected-by-default"
    = VBool (match canonical_type col with Some _ => true | None => false end) /\
  md_get md (column_breadcrumb c) "selected" = VNone.
Proof.
  intros Hrun Hin Hs Ht Hcol.
  destruct (discover_db_table _ _ _ _ _ _ _ Hrun Hin Hs Ht) as (lg & lg' & He).
  destruct (discover_table_run _ _ _ _ _ _ _ He)
    as (tb & props & Hlk & _ & _ & _ & _ & _ & _ & Hother & Hvals).
  unfold lookup_column in Hcol. rewrite Hlk in Hcol. cbv zeta.
  destruct (Hvals c col Hcol) as (V1 & V2 & V3).
  repeat split; auto.
  apply Hother. simpl. intuition discriminate.
Qed.

Lemma discovered_column_metadata_witness :
  let md := to_map (metadata Examples.orders_entry) in
  md_get md ["properties"; "flags"] "sql-datatype" = VStr "bit(8)" /\
  md_get md ["properties"; "flags"] "inclusion" = VStr "unsupported" /\
  md_get md ["properties"; "flags"] "selected-by-default" = VBool false /\
  md_get md ["properties"; "flags"] "selected" = VNone.
Proof.
  refine (discovered_column_metadata Examples.indexed []
            (fst (discover_db Examples.indexed []))
            (Examples.entries_of Examples.indexed) Examples.orders_entry
            "public" "orders" "flags" Examples.flags _ _ _ _ _).
  - vm_compute. reflexivity.
  - vm_compute. right. left. reflexivity.
  - vm_compute. reflexivity.
  - vm_compute. reflexivity.
  - vm_compute. reflexivity.
Defined.

(** X10: the schema of a discovered entry is an object with one property
    for every column of the table, in the order of the columns, and the
    schema of a column is the one the type mapper returns for it. *)
Theorem discovered_schema (db : Database)
  (logs logs' : list LogRecord) (entries : list CatalogEntry)
  (entry : CatalogEntry) (s t : string) (tb : Table) :
  discover_db db logs = (logs', inr entries) ->
  In entry entries ->
  md_get (to_map (metadata entry)) [] "schema-name" = VStr s ->
  table entry = t ->
  lookup_table (produce_table_info (rows db)) s t = Some tb ->
  exists props,
    schema entry =
      mkSchema (Some (TypeName "object")) (Some props)
        None None None None None None None /\
    keys props = keys (columns tb) /\
    forall c col, get (columns tb) c = Some col ->
      exists sch (lg lg' : list LogRecord),
        get props c = Some sch /\ schema_for_column col lg = (lg', inr sch).
Proof.
  intros Hrun Hin Hs Ht Htb.
  destruct (discover_db_table _ _ _ _ _ _ _ Hrun Hin Hs Ht) as (lg & lg' & He).
  destruct (discover_table_run _ _ _ _ _ _ _ He)
    as (tb' & props & Hlk & _ & _ & Hsch & Hkeys & Hcols & _).
  rewrite Htb in Hlk. inversion Hlk; subst tb'.
  exists props. auto.
Qed.

Lemma discovered_schema_witness :
  exists props,
    schema Examples.orders_entry =
      mkSchema (Some (TypeName "object")) (Some props)
        None None None None None None None /\
    keys props = ["id"; "flags"] /\
    forall c col,
      get [("id", Examples.id_in_other_index); ("flags", Examples.flags)] c
      = Some col ->
      exists sch (lg lg' : list LogRecord),
        get props c = Some sch /\ schema_for_column col lg = (lg', inr sch).
Proof.
  refine (discovered_schema Examples.indexed []
            (fst (discover_db Examples.indexed []))
            (Examples.entries_of Examples.indexed) Examples.orders_entry
            "public" "orders"
            {| is_view := false; row_count := 10;
               columns := [("id", Examples.id_in_other_index);
                           ("flags", Examples.flags)] |} _ _ _ _ _).
  - vm_compute. reflexivity.
  - vm_compute. right. left. reflexivity.
  - vm_compute. reflexivity.
  - vm_compute. reflexivity.
  - vm_compute. reflexivity.
Defined.

(** X11: in an entry as discovery leaves it, a column is synced exactly
    when its type is supported and it is a primary-key column. *)
Theorem discovered_column_desired (db : Database)
  (logs logs' : list LogRecord) (entries : list CatalogEntry)
  (entry : CatalogEntry) (s t c : string) (col : Column) :
  discover_db db logs = (logs', inr entries) ->
  In entry entries ->
  md_get (to_map (metadata entry)) [] "schema-name" = VStr s ->
  table entry = t ->
  lookup_column (produce_table_info (rows db)) s t c = Some col ->
  should_sync_column (to_map (metadata entry)) c =
  match canonical_type col with
  | Some _ => truthy_bool (is_primary_key col)
  | None => false
  end.
Proof.
  intros Hrun Hin Hs Ht Hcol.
  destruct (discover_db_table _ _ _ _ _ _ _ Hrun Hin Hs Ht) as (lg & lg' & He).
  destruct (discover_table_run _ _ _ _ _ _ _ He)
    as (tb & props & Hlk & _ & _ & _ & _ & _ & _ & Hother & Hvals).
  unfold lookup_column in Hcol. rewrite Hlk in Hcol.
  destruct (Hvals c col Hcol) as (_ & V2 & _).
  assert (Hsel : md_get (to_map (metadata entry)) (column_breadcrumb c) "selected"
                 = VNone).
  { apply Hother. simpl. intuition discriminate. }
  unfold should_sync_column. unfold column_breadcrumb in *.
  rewrite V2, Hsel. unfold inclusion_of.
  destruct (canonical_type col); [|reflexivity].
  destruct (truthy_bool (is_primary_key col)); reflexivity.
Qed.

Lemma discovered_column_desired_witness :
  should_sync_column (to_map (metadata Examples.orders_entry)) "id" = false.
Proof.
  refine (discovered_column_desired Examples.indexed []
            (fst (discover_db Examples.indexed []))
            (Examples.entries_of Examples.indexed) Examples.orders_entry
            "public" "orders" "id" Examples.id_in_other_index _ _ _ _ _).
  - vm_compute. reflexivity.
  - vm_compute. right. left. reflexivity.
  - vm_compute. reflexivity.
  - vm_compute. reflexivity.
  - vm_compute. reflexivity.
Defined.

(** X12: the catalog of a discovery run selects no stream: a sync run on
    it, with any state and any default replication method, returns at
    once, and writes and logs nothing. *)
Theorem unedited_catalog_syncs_nothing {World X : Type}
  {LR : logical_replication.t World X} {FT : full_table.t World X}
  (cluster : list Database) (logs logs' : list LogRecord) (catalog : Catalog)
  (conn_config : ConnConfig) (default_replication_method : pyval)
  (state : State) (env : Env World X) :
  do_discovery cluster logs = (logs', inr catalog) ->
  do_sync conn_config catalog default_replication_method state env
  = (env, inr (conn_config, state)).
Proof.
  intros Hrun.
  assert (Hall : Forall (fun e => is_selected_via_metadata e = VNone)
                   (streams catalog)).
  { refine (do_discovery_Forall _ cluster logs logs' catalog _ Hrun).
    intros db rows s t lg lg' e He.
    destruct (discover_table_run _ _ _ _ _ _ _ He)
      as (tb & props & _ & _ & _ & _ & _ & _ & Hmd & _).
    change (is_selected_via_metadata e)
      with (md_get (to_map (metadata e)) [] "selected").
    rewrite Hmd.
    now rewrite !md_get_write_other by (right; discriminate). }
  assert (Hnone : selected_streams catalog = []).
  { unfold selected_streams.
    replace (filter _ (streams catalog)) with (@nil CatalogEntry);
      [reflexivity|].
    symmetry. induction Hall as [|e l He _ IH]; [reflexivity|].
    simpl. now rewrite He. }
  unfold do_sync, resumed_streams. rewrite Hnone. simpl.
  destruct (truthy_str (get_currently_syncing state)); reflexivity.
Qed.

Lemma unedited_catalog_syncs_nothing_witness :
  @do_sync Z string Examples.lr Examples.ft Examples.conn_config0
    (Examples.discovered Examples.shop) (VStr "FULL_TABLE") Examples.no_state
    Examples.env0
  = (Examples.env0, inr (Examples.conn_config0, Examples.no_state)).
Proof.
  refine (unedited_catalog_syncs_nothing Examples.shop []
            (fst (do_discovery Examples.shop []))
            (Examples.discovered Examples.shop) _ _ _ _ _).
  vm_compute. reflexivity.
Defined.

(* ================================================================== *)
(** * More of the sync loop *)
(* ================================================================== *)

Lemma eq_str_true (v : pyval) (s : string) : eq_str v s = true -> v = VStr s.
Proof.
  destruct v; simpl; try discriminate. intros H.
  apply String.eqb_eq in H. now subst.
Qed.

Section Dispatched.

Context {World X : Type}.
Context {LR : logical_replication.t World X} {FT : full_table.t World X}.

(** The iteration of a stream that passes the two guards. *)
Lemma sync_stream_dispatched (default_replication_method : pyval)
  (stream : CatalogEntry) (conn_config : ConnConfig) (state : State)
  (env : Env World X) :
  selected stream ->
  some_desired_column stream ->
  eq_str (resolved_method default_replication_method stream) "LOG_BASED"
    && is_view_stream stream = false ->
  sync_stream default_replication_method stream (conn_config, state) env =
  (state <- dispatch (resolved_method default_replication_method stream)
              (at_stream stream conn_config) stream (marked stream state)
              (desired_columns stream) (to_map (metadata stream)) ;;
   write_message (StateMessage (set_currently_syncing state None)) ;;
   ret (at_stream stream conn_config, set_currently_syncing state None)) env.
Proof.
  intros Hsel Hsome Hview.
  pose proof (some_desired_column_cons stream Hsome) as Hcols.
  destruct Hsome as (props & c & Hprops & _).
  rewrite (sync_stream_selected _ _ _ _ props) by assumption.
  cbv zeta. destruct (desired_columns stream) as [|c0 cols]; [contradiction|].
  cbn [length Nat.eqb]. now rewrite Hview.
Qed.

(** X14: a selected stream with a desired column that resolves to
    [LOG_BASED] and is a view is skipped with one warning: no strategy is
    called and nothing is written to the sink; the bookmarks are left as
    they were and the marker stays at the stream; the loop goes on with
    the next stream. *)
Theorem log_based_view_skipped (default_replication_method : pyval)
  (stream : CatalogEntry) (conn_config : ConnConfig) (state : State)
  (env : Env World X) :
  selected stream ->
  some_desired_column stream ->
  eq_str (resolved_method default_replication_method stream) "LOG_BASED" = true ->
  is_view_stream stream = true ->
  let env' :=
    {| world := world env; sink := sink env;
       logs := logs env ++
         [{| level := WARNING;
             fmt := "Logical Replication is NOT supported for views. skipping stream %s";
             args := [VStr (tap_stream_id stream)] |}] |} in
  let state' := marked stream state in
  sync_stream default_replication_method stream (conn_config, state) env =
  (env', inr (at_stream stream conn_config, state'))
  /\ bookmarks state' = bookmarks state
  /\ forall rest,
       for_each (stream :: rest) (sync_stream default_replication_method)
         (conn_config, state) env =
       for_each rest (sync_stream default_replication_method)
         (at_stream stream conn_config, state') env'.
Proof.
  intros Hsel Hsome Hlog Hview env' state'.
  assert (Hrun : sync_stream default_replication_method stream
                   (conn_config, state) env =
                 (env', inr (at_stream stream conn_config, state'))).
  { pose proof (some_desired_column_cons stream Hsome) as Hcols.
    destruct Hsome as (props & c & Hprops & _).
    rewrite (sync_stream_selected _ _ _ _ props) by assumption.
    cbv zeta. destruct (desired_columns stream) as [|c0 cols]; [contradiction|].
    cbn [length Nat.eqb]. rewrite Hlog, Hview. reflexivity. }
  split; [exact Hrun|]. split; [reflexivity|].
  intros rest. cbn [for_each]. unfold bind at 1. now rewrite Hrun.
Qed.

(** X15: a selected stream with a desired column that resolves to
    [FULL_TABLE] is logged, announced by a schema message with no bookmark
    property, and handed to the full-table strategy, to [sync_view] if it
    is a view and to [sync_table] if not; the state the strategy returns
    is checkpointed with a null marker. *)
Theorem full_table_stream_synced (default_replication_method : pyval)
  (stream : CatalogEntry) (conn_config : ConnConfig) (state : State)
  (env : Env World X) (out : list X) (w : World) (state2 : State) :
  selected stream ->
  some_desired_column stream ->
  eq_str (resolved_method default_replication_method stream) "FULL_TABLE" = true ->
  (if is_view_stream stream then full_table.sync_view else full_table.sync_table)
    (at_stream stream conn_config) stream (marked stream state)
    (desired_columns stream) (to_map (metadata stream)) (world env)
  = (out, w, inr state2) ->
  let final := set_currently_syncing state2 None in
  sync_stream default_replication_method stream (conn_config, state) env =
  ({| world := w;
      sink := sink env ++ [schema_message_of stream []] ++ map Passthrough out
              ++ [StateMessage final];
      logs := logs env ++
        [{| level := INFO;
            fmt := "Stream %s is using full_table";
            args := [VStr (tap_stream_id stream)] |}] |},
   inr (at_stream stream conn_config, final)).
Proof.
  intros Hsel Hsome Hfull Hscan final.
  apply eq_str_true in Hfull.
  rewrite sync_stream_dispatched; try assumption.
  2:{ now rewrite Hfull. }
  rewrite Hfull. unfold bind at 1. unfold dispatch.
  change (eq_str (VStr "FULL_TABLE") "LOG_BASED") with false. cbv iota.
  change (eq_str (VStr "FULL_TABLE") "FULL_TABLE") with true. cbv iota.
  unfold do_sync_full_table, is_view_stream in *.
  unfold bind, call, log, send_schema_message, write_message, ret.
  cbn [world sink logs emit_log Env_Logging].
  unfold schema_message_of.
  destruct (truthy (md_get (to_map (metadata stream)) [] "is-view"));
    cbn [world sink logs]; rewrite Hscan; cbn [world sink logs];
    rewrite <- !app_assoc; reflexivity.
Qed.

(** X16: a selected log-based table that has a true [lsn] bookmark is
    read from the log: the end of the log is fetched and logged, the
    automatic properties are added to the stream, the schema message of
    the stream so extended names [lsn] as its bookmark property, and the
    log-based strategy runs on it; the orchestrator writes no bookmark of
    its own, and checkpoints the state the strategy returns with a null
    marker. *)
Theorem log_based_stream_resumes (default_replication_method : pyval)
  (stream stream' : CatalogEntry) (conn_config : ConnConfig) (state : State)
  (env : Env World X)
  (out1 out2 out3 : list X) (w1 w2 w3 : World) (end_lsn : pyval)
  (state3 : State) :
  selected stream ->
  some_desired_column stream ->
  eq_str (resolved_method default_replication_method stream) "LOG_BASED" = true ->
  is_view_stream stream = false ->
  truthy (get_bookmark state (tap_stream_id stream) "lsn") = true ->
  logical_replication.fetch_current_lsn (at_stream stream conn_config)
    (world env) = (out1, w1, inr end_lsn) ->
  logical_replication.add_automatic_properties stream w1
  = (out2, w2, inr stream') ->
  logical_replication.sync_table (at_stream stream conn_config) stream'
    (marked stream state) (desired_columns stream) (to_map (metadata stream))
    w2 = (out3, w3, inr state3) ->
  let final := set_currently_syncing state3 None in
  sync_stream default_replication_method stream (conn_config, state) env =
  ({| world := w3;
      sink := sink env ++ map Passthrough out1 ++ map Passthrough out2
              ++ [schema_message_of stream' ["lsn"]] ++ map Passthrough out3
              ++ [StateMessage final];
      logs := logs env ++
        [{| level := INFO;
            fmt := "Stream %s is using logical replication. end lsn %s";
            args := [VStr (tap_stream_id stream); end_lsn] |}] |},
   inr (at_stream stream conn_config, final))
  /\ bookmarks final = bookmarks state3.
Proof.
  intros Hsel Hsome Hlog Hview Hlsn Hfetch Hadd Hsync final.
  split; [|reflexivity].
  rewrite sync_stream_dispatched; try assumption.
  2:{ now rewrite Hview, andb_false_r. }
  unfold bind at 1. unfold dispatch. rewrite Hlog.
  unfold do_sync_logical_replication.
  change (get_bookmark (marked stream state) (tap_stream_id stream) "lsn")
    with (get_bookmark state (tap_stream_id stream) "lsn").
  rewrite Hlsn.
  unfold bind, call, log, send_schema_message, write_message, ret.
  cbn [world sink logs emit_log Env_Logging]. rewrite Hfetch.
  cbn [world sink logs]. rewrite Hadd. cbn [world sink logs]. rewrite Hsync.
  unfold schema_message_of. cbn [world sink logs].
  rewrite <- !app_assoc. reflexivity.
Qed.

(** X17: when the strategy of a stream raises, the run raises the same
    exception there: no state message is written for the stream, so the
    sink holds no checkpoint that covers it, and no later stream is
    entered. *)
Theorem strategy_failure_aborts (default_replication_method : pyval)
  (stream : CatalogEntry) (conn_config : ConnConfig) (state : State)
  (env env2 : Env World X) (e : exn) :
  selected stream ->
  some_desired_column stream ->
  eq_str (resolved_method default_replication_method stream) "LOG_BASED"
    && is_view_stream stream = false ->
  dispatch (resolved_method default_replication_method stream)
    (at_stream stream conn_config) stream (marked stream state)
    (desired_columns stream) (to_map (metadata stream)) env
  = (env2, inl e) ->
  sync_stream default_replication_method stream (conn_config, state) env
  = (env2, inl e)
  /\ (exists out, sink env2 = sink env ++ out /\ Forall not_state out)
  /\ forall rest,
       for_each (stream :: rest) (sync_stream default_replication_method)
         (conn_config, state) env = (env2, inl e)
       /\ entered (stream :: rest) (sync_stream default_replication_method)
            (conn_config, state) env = [stream].
Proof.
  intros Hsel Hsome Hview Hdispatch.
  assert (Hrun : sync_stream default_replication_method stream
                   (conn_config, state) env = (env2, inl e)).
  { rewrite sync_stream_dispatched by assumption.
    unfold bind at 1. now rewrite Hdispatch. }
  split; [exact Hrun|]. split.
  - pose proof (dispatch_grows (resolved_method default_replication_method stream)
                  (at_stream stream conn_config) stream (marked stream state)
                  (desired_columns stream) (to_map (metadata stream)) env)
      as (out & Hout & Hnot).
    rewrite Hdispatch in Hout. now exists out.
  - intros rest. cbn [for_each entered]. unfold bind at 1. now rewrite Hrun.
Qed.

(** X18: a selected stream whose schema has no properties makes the run
    raise [AttributeError] when the loop reaches it, before anything is
    logged or written. *)
Theorem schema_without_properties_raises (default_replication_method : pyval)
  (stream : CatalogEntry) (conn_config : ConnConfig) (state : State)
  (env : Env World X) :
  selected stream ->
  properties (schema stream) = None ->
  sync_stream default_replication_method stream (conn_config, state) env =
  (env, inl (AttributeError "'NoneType' object has no attribute 'keys'"))
  /\ forall rest,
       for_each (stream :: rest) (sync_stream default_replication_method)
         (conn_config, state) env =
       (env, inl (AttributeError "'NoneType' object has no attribute 'keys'")).
Proof.
  intros Hsel Hprops. destruct (selected_metadata stream Hsel) as [d Hd].
  assert (Hrun : sync_stream default_replication_method stream
                   (conn_config, state) env =
                 (env, inl (AttributeError
                              "'NoneType' object has no attribute 'keys'"))).
  { unfold sync_stream. rewrite Hd, Hprops. reflexivity. }
  split; [exact Hrun|].
  intros rest. cbn [for_each]. unfold bind at 1. now rewrite Hrun.
Qed.

(** An iteration that returns has set [dbname] and nothing else in the
    connection configuration. *)
Lemma sync_stream_conn_config (default_replication_method : pyval)
  (stream : CatalogEntry) (conn_config conn_config' : ConnConfig)
  (state state' : State) (env env' : Env World X) :
  sync_stream default_replication_method stream (conn_config, state) env
  = (env', inr (conn_config', state')) ->
  conn_config' = at_stream stream conn_config.
Proof.
  unfold at_stream.
  destruct (get (to_map (metadata stream)) []) as [d|] eqn:Hd.
  2:{ unfold sync_stream. rewrite Hd. discriminate. }
  assert (Hdb : md_get (to_map (metadata stream)) [] "database-name" =
                get_default d "database-name" VNone).
  { unfold md_get. unfold get_default at 2. now rewrite Hd. }
  rewrite Hdb. unfold sync_stream. rewrite Hd.
  destruct (properties (schema stream)) as [props|]; [|discriminate].
  cbv beta iota zeta. unfold bind at 1 2, ret at 1 2.
  destruct (length _ =? 0)%nat.
  - unfold bind, log, ret. intros Heq. now inversion Heq.
  - destruct (eq_str _ _ && _).
    + unfold bind, log, ret. intros Heq. now inversion Heq.
    + unfold bind at 1.
      destruct (dispatch _ _ _ _ _ _ env) as [env1 [e|st1]]; [discriminate|].
      unfold bind, write_message, ret. intros Heq. now inversion Heq.
Qed.

(** X19: a run that returns has changed the caller's connection
    configuration at the key [dbname] only: the host, the port and the
    credentials are what they were. *)
Theorem only_dbname_changes (conn_config conn_config' : ConnConfig)
  (catalog : Catalog) (default_replication_method : pyval)
  (state state' : State) (env env' : Env World X) (k : string) :
  do_sync conn_config catalog default_replication_method state env
  = (env', inr (conn_config', state')) ->
  k <> "dbname" ->
  get conn_config' k = get conn_config k.
Proof.
  unfold do_sync. intros Hrun Hk.
  remember (resumed_streams catalog state) as l eqn:Hl. clear Hl.
  revert conn_config state env Hrun.
  induction l as [|stream l IH]; intros conn_config state0 env Hrun.
  - simpl in Hrun. inversion Hrun. reflexivity.
  - cbn [for_each] in Hrun.
    apply bind_inr in Hrun as (env1 & [cc1 st1] & Hbody & Hrest).
    apply sync_stream_conn_config in Hbody. subst cc1.
    rewrite (IH _ _ _ Hrest). unfold at_stream.
    apply get_set_other. congruence.
Qed.

End Dispatched.

(** ** The order of the streams *)

Lemma Permutation_filter_compat {A} (f : A -> bool) (l1 l2 : list A) :
  Permutation l1 l2 -> Permutation (filter f l1) (filter f l2).
Proof.
  induction 1 as [|x l1 l2 _ IH|x y l|l1 l2 l3 _ IH1 _ IH2]; simpl.
  - constructor.
  - destruct (f x); [now constructor | exact IH].
  - destruct (f x), (f y); try reflexivity. apply perm_swap.
  - now transitivity (filter f l2).
Qed.

Lemma NoDup_map_eq {A B} (f : A -> B) (l : list A) (x y : A) :
  NoDup (map f l) -> In x l -> In y l -> f x = f y -> x = y.
Proof.
  induction l as [|z l IH]; simpl; [intros _ []|].
  intros Hnd Hx Hy Hf. inversion Hnd as [|? ? Hnot Hnd']; subst.
  destruct Hx as [->|Hx], Hy as [->|Hy]; auto.
  - exfalso. apply Hnot. rewrite Hf. now apply in_map.
  - exfalso. apply Hnot. rewrite <- Hf. now apply in_map.
Qed.

(** Two sorted lists with the same elements and distinct keys are one
    list. *)
Lemma sorted_perm_unique {A} (key : A -> string) (l1 l2 : list A) :
  StronglySorted (key_le key) l1 ->
  StronglySorted (key_le key) l2 ->
  Permutation l1 l2 ->
  NoDup (map key l1) ->
  l1 = l2.
Proof.
  revert l2. induction l1 as [|x l1 IH]; intros l2 H1 H2 Hperm Hnd.
  - apply Permutation_nil in Hperm. now subst.
  - destruct l2 as [|y l2].
    { apply Permutation_sym, Permutation_nil in Hperm. discriminate. }
    apply StronglySorted_inv in H1 as [H1 Hx].
    apply StronglySorted_inv in H2 as [H2 Hy].
    assert (Hxy : x = y).
    { assert (Hin_y : In y (x :: l1)).
      { apply (Permutation_in _ (Permutation_sym Hperm)). now left. }
      assert (Hin_x : In x (y :: l2)).
      { apply (Permutation_in _ Hperm). now left. }
      apply (NoDup_map_eq key (x :: l1)); auto; [now left|].
      apply String.leb_antisym.
      - destruct Hin_y as [->|Hin_y]; [apply leb_refl|].
        rewrite Forall_forall in Hx. now apply Hx.
      - destruct Hin_x as [->|Hin_x]; [apply leb_refl|].
        rewrite Forall_forall in Hy. now apply Hy. }
    subst y. f_equal. apply IH; auto.
    + now apply Permutation_cons_inv in Hperm.
    + now inversion Hnd.
Qed.

(** X20: the order of the streams in the catalog does not matter when
    the selected streams have distinct identifiers: two catalogs with the
    same streams in different orders are synced alike. *)
Theorem catalog_order_irrelevant {World X : Type}
  {LR : logical_replication.t World X} {FT : full_table.t World X}
  (catalog1 catalog2 : Catalog) :
  Permutation (streams catalog1) (streams catalog2) ->
  NoDup (map tap_stream_id (selected_streams catalog1)) ->
  selected_streams catalog1 = selected_streams catalog2
  /\ forall conn_config default_replication_method state (env : Env World X),
       do_sync conn_config catalog1 default_replication_method state env =
       do_sync conn_config catalog2 default_replication_method state env.
Proof.
  intros Hperm Hnd.
  assert (Heq : selected_streams catalog1 = selected_streams catalog2).
  { apply (sorted_perm_unique tap_stream_id).
    - apply sort_by_sorted.
    - apply sort_by_sorted.
    - unfold selected_streams. rewrite !sort_by_perm.
      now apply Permutation_filter_compat.
    - exact Hnd. }
  split; [exact Heq|].
  intros conn_config d state env. unfold do_sync, resumed_streams.
  now rewrite Heq.
Qed.

(** X21: the desired columns a strategy receives are in ascending order,
    and they are the properties of the schema that pass the column
    filter, each as often as the schema lists it. *)
Theorem desired_columns_sorted (md_map : MdMap)
  (properties : dict string Schema) :
  StronglySorted (fun a b => (a <=? b)%string = true)
    (desired_columns_of md_map properties)
  /\ Permutation (desired_columns_of md_map properties)
       (filter (should_sync_column md_map) (keys properties)).
Proof.
  unfold desired_columns_of. split.
  - exact (sort_by_sorted (fun c : string => c) _).
  - apply sort_by_perm.
Qed.

(** ** The loop at concrete runs *)

Lemma log_based_view_skipped_witness :
  let env' :=
    {| world := 100%Z; sink := [];
       logs :=
         [{| level := WARNING;
             fmt := "Logical Replication is NOT supported for views. skipping stream %s";
             args := [VStr "V"] |}] |} in
  let state' := {| currently_syncing := Some "V"; bookmarks := [] |} in
  @sync_stream Z string Examples.lr Examples.ft VNone Examples.view
    (Examples.conn_config0, Examples.no_state) Examples.env0 =
  (env', inr ([("host", VStr "localhost"); ("dbname", VStr "db")], state'))
  /\ bookmarks state' = bookmarks Examples.no_state
  /\ forall rest,
       for_each (Examples.view :: rest)
         (@sync_stream Z string Examples.lr Examples.ft VNone)
         (Examples.conn_config0, Examples.no_state) Examples.env0 =
       for_each rest (@sync_stream Z string Examples.lr Examples.ft VNone)
         ([("host", VStr "localhost"); ("dbname", VStr "db")], state') env'.
Proof.
  exact (@log_based_view_skipped Z string Examples.lr Examples.ft VNone
           Examples.view Examples.conn_config0 Examples.no_state Examples.env0
           eq_refl (full_has_desired_column "V" (VStr "LOG_BASED") true)
           eq_refl eq_refl).
Defined.

Lemma full_table_stream_synced_witness :
  let final :=
    {| currently_syncing := None;
       bookmarks := [("A", [("xmin", VInt 7)])] |} in
  @sync_stream Z string Examples.lr Examples.ft VNone (Examples.full "A")
    (Examples.conn_config0, Examples.no_state) Examples.env0 =
  ({| world := 105%Z;
      sink := [schema_message_of (Examples.full "A") [];
               Passthrough "rows of A"; StateMessage final];
      logs := [{| level := INFO; fmt := "Stream %s is using full_table";
                  args := [VStr "A"] |}] |},
   inr ([("host", VStr "localhost"); ("dbname", VStr "db")], final)).
Proof.
  exact (@full_table_stream_synced Z string Examples.lr Examples.ft VNone
           (Examples.full "A") Examples.conn_config0 Examples.no_state
           Examples.env0 ["rows of A"] 105%Z
           (write_bookmark (marked (Examples.full "A") Examples.no_state)
              "A" "xmin" (VInt 7))
           eq_refl (full_has_desired_column "A" (VStr "FULL_TABLE") false)
           eq_refl eq_refl).
Defined.

Lemma log_based_stream_resumes_witness :
  let final :=
    {| currently_syncing := None;
       bookmarks := [("L", [("lsn", VInt 100)])] |} in
  @sync_stream Z string Examples.lr Examples.ft VNone (Examples.log_based "L")
    (Examples.conn_config0, Examples.synced_to 90) Examples.env0 =
  ({| world := 100%Z;
      sink := [schema_message_of (Examples.log_based "L") ["lsn"];
               Passthrough "changes of L"; StateMessage final];
      logs := [{| level := INFO;
                  fmt := "Stream %s is using logical replication. end lsn %s";
                  args := [VStr "L"; VInt 100] |}] |},
   inr ([("host", VStr "localhost"); ("dbname", VStr "db")], final))
  /\ bookmarks final = [("L", [("lsn", VInt 100)])].
Proof.
  exact (@log_based_stream_resumes Z string Examples.lr Examples.ft VNone
           (Examples.log_based "L") (Examples.log_based "L")
           Examples.conn_config0 (Examples.synced_to 90) Examples.env0
           [] [] ["changes of L"] 100%Z 100%Z 100%Z (VInt 100)
           (write_bookmark
              (marked (Examples.log_based "L") (Examples.synced_to 90))
              "L" "lsn" (VInt 100))
           eq_refl (full_has_desired_column "L" (VStr "LOG_BASED") false)
           eq_refl eq_refl eq_refl eq_refl eq_refl eq_refl).
Defined.

Lemma strategy_failure_aborts_witness :
  let env2 :=
    {| world := 101%Z;
       sink := [schema_message_of (Examples.full "A") [];
                Passthrough "some rows of A"];
       logs := [{| level := INFO; fmt := "Stream %s is using full_table";
                   args := [VStr "A"] |}] |} in
  @sync_stream Z string Examples.lr Examples.ft_fails VNone (Examples.full "A")
    (Examples.conn_config0, Examples.no_state) Examples.env0
  = (env2, inl (Exception "connection lost"))
  /\ (exists out, sink env2 = sink Examples.env0 ++ out /\ Forall not_state out)
  /\ forall rest,
       for_each (Examples.full "A" :: rest)
         (@sync_stream Z string Examples.lr Examples.ft_fails VNone)
         (Examples.conn_config0, Examples.no_state) Examples.env0
       = (env2, inl (Exception "connection lost"))
       /\ entered (Examples.full "A" :: rest)
            (@sync_stream Z string Examples.lr Examples.ft_fails VNone)
            (Examples.conn_config0, Examples.no_state) Examples.env0
          = [Examples.full "A"].
Proof.
  exact (@strategy_failure_aborts Z string Examples.lr Examples.ft_fails VNone
           (Examples.full "A") Examples.conn_config0 Examples.no_state
           Examples.env0
           {| world := 101%Z;
              sink := [schema_message_of (Examples.full "A") [];
                       Passthrough "some rows of A"];
              logs := [{| level := INFO; fmt := "Stream %s is using full_table";
                          args := [VStr "A"] |}] |}
           (Exception "connection lost")
           eq_refl (full_has_desired_column "A" (VStr "FULL_TABLE") false)
           eq_refl eq_refl).
Defined.

Lemma schema_without_properties_raises_witness :
  @sync_stream Z string Examples.lr Examples.ft VNone Examples.no_properties
    (Examples.conn_config0, Examples.no_state) Examples.env0 =
  (Examples.env0,
   inl (AttributeError "'NoneType' object has no attribute 'keys'"))
  /\ forall rest,
       for_each (Examples.no_properties :: rest)
         (@sync_stream Z string Examples.lr Examples.ft VNone)
         (Examples.conn_config0, Examples.no_state) Examples.env0 =
       (Examples.env0,
        inl (AttributeError "'NoneType' object has no attribute 'keys'")).
Proof.
  exact (@schema_without_properties_raises Z string Examples.lr Examples.ft
           VNone Examples.no_properties Examples.conn_config0
           Examples.no_state Examples.env0 eq_refl eq_refl).
Defined.

Lemma only_dbname_changes_witness :
  get [("host", VStr "localhost"); ("dbname", VStr "db")] "host"
  = get Examples.conn_config0 "host".
Proof.
  refine (@only_dbname_changes Z string Examples.lr Examples.ft
            Examples.conn_config0
            [("host", VStr "localhost"); ("dbname", VStr "db")]
            Examples.only_a VNone Examples.no_state
            {| currently_syncing := None;
               bookmarks := [("A", [("xmin", VInt 7)])] |}
            Examples.env0
            (fst (@do_sync Z string Examples.lr Examples.ft
                    Examples.conn_config0 Examples.only_a VNone
                    Examples.no_state Examples.env0))
            "host" _ _).
  - vm_compute. reflexivity.
  - discriminate.
Defined.

Lemma catalog_order_irrelevant_witness :
  selected_streams Examples.abxyz
  = selected_streams {| streams := rev (streams Examples.abxyz) |}
  /\ forall conn_config default_replication_method state (env : Env Z string),
       @do_sync Z string Examples.lr Examples.ft conn_config Examples.abxyz
         default_replication_method state env =
       @do_sync Z string Examples.lr Examples.ft conn_config
         {| streams := rev (streams Examples.abxyz) |}
         default_replication_method state env.
Proof.
  refine (@catalog_order_irrelevant Z string Examples.lr Examples.ft
            Examples.abxyz {| streams := rev (streams Examples.abxyz) |} _ _).
  - apply Permutation_rev.
  - vm_compute. repeat constructor; simpl; intuition discriminate.
Defined.

(* ================================================================== *)
(** * Discovery: a column that cannot be mapped *)
(* ================================================================== *)

(** A loop whose body raises on one of its elements raises: at that
    element, or at an earlier one. *)
Lemma for_each_raises {S A B} (l : list A) (body : A -> B -> M S B) (x : A) :
  In x l ->
  (forall acc s, exists s' e, body x acc s = (s', inl e)) ->
  forall acc s, exists s' e, for_each l body acc s = (s', inl e).
Proof.
  intros Hin Hx. induction l as [|a l IH]; [destruct Hin|].
  intros acc s. cbn [for_each]. unfold bind.
  destruct Hin as [->|Hin].
  - destruct (Hx acc s) as (s' & e & ->). eauto.
  - destruct (body a acc s) as [s1 [e|acc1]]; [eauto|]. now apply IH.
Qed.

Lemma bind_raises {S A B} (m : M S A) (f : A -> M S B) (s : S) :
  (exists s' e, m s = (s', inl e)) ->
  exists s' e, bind m f s = (s', inl e).
Proof. intros (s' & e & Hm). unfold bind. rewrite Hm. eauto. Qed.

Lemma discover_table_raises (database_name : string) (table_info : TableInfo)
  (s t c : string) (col : Column) (logs : list LogRecord) :
  lookup_column table_info s t c = Some col ->
  (forall lg : list LogRecord,
     exists lg' e, schema_for_column col lg = (lg', inl e)) ->
  exists logs' e,
    discover_table database_name table_info s t logs = (logs', inl e).
Proof.
  unfold lookup_column, lookup_table. intros Hcol Hraises.
  destruct (get table_info s) as [tables|] eqn:Hs; [|discriminate].
  destruct (get tables t) as [tb|] eqn:Ht; [|discriminate].
  unfold discover_table.
  unfold item at 1. rewrite Hs. unfold bind at 1, ret at 1.
  unfold item at 1. rewrite Ht. unfold bind at 1, ret at 1.
  apply bind_raises.
  apply (for_each_raises _ _ (c, col)); [now apply get_In|].
  intros acc lg. apply bind_raises. cbn [snd]. apply Hraises.
Qed.

Lemma discover_db_raises (db : Database) (s t c : string) (col : Column)
  (logs : list LogRecord) :
  lookup_column (produce_table_info (rows db)) s t c = Some col ->
  (forall lg : list LogRecord,
     exists lg' e, schema_for_column col lg = (lg', inl e)) ->
  exists logs' e, discover_db db logs = (logs', inl e).
Proof.
  intros Hcol Hraises. unfold discover_db, discover_columns.
  assert (Hlk := Hcol). unfold lookup_column, lookup_table in Hlk.
  destruct (get (produce_table_info (rows db)) s) as [tables|] eqn:Hs;
    [|discriminate].
  destruct (get tables t) as [tb|] eqn:Ht; [|discriminate].
  apply (for_each_raises _ _ s); [now apply (get_in_keys _ _ tables)|].
  intros acc lg. unfold item at 1. rewrite Hs. unfold bind at 1, ret at 1.
  apply (for_each_raises _ _ t); [now apply (get_in_keys _ _ tb)|].
  intros acc' lg'. apply bind_raises.
  now apply (discover_table_raises _ _ s t c col).
Qed.

(** X22: discovery is all or nothing: one column on which the type
    mapper raises, in any table of any database of the cluster, makes the
    whole run raise, and no catalog is returned, not even for the
    databases discovered before it. *)
Theorem discovery_all_or_nothing (cluster : list Database) (db : Database)
  (s t c : string) (col : Column) (logs : list LogRecord) :
  In db cluster ->
  lookup_column (produce_table_info (rows db)) s t c = Some col ->
  (forall lg : list LogRecord,
     exists lg' e, schema_for_column col lg = (lg', inl e)) ->
  exists logs' e, do_discovery cluster logs = (logs', inl e).
Proof.
  intros Hdb Hcol Hraises. unfold do_discovery.
  unfold bind at 1. unfold log at 1.
  apply bind_raises.
  apply (for_each_raises _ _ db); [exact Hdb|].
  intros acc lg. unfold bind at 1. unfold log at 1.
  apply bind_raises.
  now apply (discover_db_raises db s t c col).
Qed.

Lemma discovery_all_or_nothing_witness :
  exists logs' e,
    do_discovery
      [ {| datname := "sales";
           rows := [Examples.a_row "public" "orders" Examples.id] |};
        {| datname := "hr";
           rows := [Examples.a_row "public" "staff" Examples.name;
                    Examples.a_row "public" "staff" Examples.counter] |} ]
      ([] : list LogRecord)
    = (logs', inl e).
Proof.
  refine (discovery_all_or_nothing _
            {| datname := "hr";
               rows := [Examples.a_row "public" "staff" Examples.name;
                        Examples.a_row "public" "staff" Examples.counter] |}
            "public" "staff" "counter" Examples.counter [] _ _ _).
  - right. left. reflexivity.
  - reflexivity.
  - intros lg. do 2 eexists. cbv. reflexivity.
Defined.

(* ================================================================== *)
(** * The schema message of a discovered stream *)
(* ================================================================== *)

(** X23: the schema message of a stream as discovery leaves it carries
    the names of the primary-key columns as its key properties when the
    stream is a table, and null when it is a view: discovery files the key
    columns of every stream under [table-key-properties], and the message
    of a view reads [view-key-properties]. *)
Theorem discovered_key_properties {World X : Type} (db : Database)
  (l l' : list LogRecord) (entries : list CatalogEntry)
  (entry : CatalogEntry) (s t : string) (tb : Table)
  (bookmark_properties : list string) (env : Env World X) :
  discover_db db l = (l', inr entries) ->
  In entry entries ->
  md_get (to_map (metadata entry)) [] "schema-name" = VStr s ->
  table entry = t ->
  lookup_table (produce_table_info (rows db)) s t = Some tb ->
  send_schema_message entry bookmark_properties env =
  ({| world := world env;
      sink := sink env ++
        [SchemaMessage t (schema entry)
           (if is_view tb then VNone
            else VList (map VStr (primary_keys (columns tb))))
           bookmark_properties];
      logs := logs env |},
   inr tt).
Proof.
  intros Hrun Hin Hs Ht Htb.
  destruct (discover_db_table _ _ _ _ _ _ _ Hrun Hin Hs Ht) as (lg & lg' & He).
  destruct (discover_table_run _ _ _ _ _ _ _ He)
    as (tb' & props & Hlk & _ & Hstream & _ & _ & _ & Hmd & _).
  rewrite Htb in Hlk. inversion Hlk; subst tb'. clear Hlk.
  unfold send_schema_message, write_message. rewrite Hstream, !Hmd.
  rewrite md_get_write_same.
  rewrite !(md_get_write_other _ _ _ _ "view-key-properties")
    by (right; discriminate).
  rewrite !(md_get_write_other _ _ _ _ "table-key-properties")
    by (right; discriminate).
  rewrite md_get_write_same.
  destruct (is_view tb); reflexivity.
Qed.

Lemma discovered_key_properties_witness :
  @send_schema_message Z string Examples.report_entry [] Examples.env0 =
  ({| world := 100%Z;
      sink := [SchemaMessage "report" (schema Examples.report_entry) VNone []];
      logs := [] |},
   inr tt).
Proof.
  refine (@discovered_key_properties Z string Examples.reports []
            (fst (discover_db Examples.reports []))
            (Examples.entries_of Examples.reports) Examples.report_entry
            "public" "report"
            {| is_view := true; row_count := 99;
               columns := [("name", Examples.name)] |}
            [] Examples.env0 _ _ _ _ _).
  - vm_compute. reflexivity.
  - vm_compute. left. reflexivity.
  - vm_compute. reflexivity.
  - vm_compute. reflexivity.
  - vm_compute. reflexivity.
Defined.
